(** * ABCFold: the Boltz and Chai-1 run drivers

    A shallow embedding of [src/abcfold/boltz/run_boltz.py] and
    [src/abcfold/chai1/run_chai1.py]: the container bind-path allocator
    ([ensure_bind]), the command builders ([generate_boltz_command],
    [generate_chai_command] and the two test builders) and the per-seed
    run loops ([run_boltz], [run_chai]). *)

From Stdlib Require Import ZArith Lia Ascii.
From stdpp Require Import base decidable option list strings pretty.

Local Open Scope Z_scope.
Local Open Scope nat_scope.

(** ** Paths

    A [pathlib.Path] is modelled by its [parts] tuple: [Path("/a/b")] is
    [["/"; "a"; "b"]], [Path("a/b")] is [["a"; "b"]] and [Path(".")] is
    [[]].  Two [Path] objects are equal when their parts are. *)

Abbreviation Path := (list string).

Definition is_absolute (p : Path) : bool :=
  match p with
  | s :: _ => bool_decide (s = "/")
  | [] => false
  end.

(** [p / name] for a [name] that is one relative component. *)
Definition joinpath (p : Path) (name : string) : Path := p ++ [name].

(** [p.parent]: the root and the empty path are their own parents. *)
Definition parent (p : Path) : Path :=
  if is_absolute p && bool_decide (length p = 1) then p else removelast p.

(** [p.name]: the last component, empty for the root and for [Path(".")]. *)
Definition name (p : Path) : string :=
  if is_absolute p && bool_decide (length p = 1) then "" else default ""%string (last p).

(** [str(p)]. *)
Definition str (p : Path) : string :=
  match p with
  | [] => "."
  | s :: rest =>
      if bool_decide (s = "/") then "/" +:+ String.concat "/" rest
      else String.concat "/" p
  end.

(** ** The bind-path allocator

    [bind_map: dict[Path, str]] is an insertion-ordered dictionary: an
    association list in insertion order, read with [dict_get] and written
    with [dict_set] (an existing key keeps its position, a new key goes to
    the end). *)

Abbreviation BindMap := (list (Path * string)).

Fixpoint dict_get (m : BindMap) (k : Path) : option string :=
  match m with
  | [] => None
  | (k', v) :: m' => if decide (k' = k) then Some v else dict_get m' k
  end.

Fixpoint dict_set (m : BindMap) (k : Path) (v : string) : BindMap :=
  match m with
  | [] => [(k, v)]
  | (k', v') :: m' =>
      if decide (k' = k) then (k, v) :: m' else (k', v') :: dict_set m' k v
  end.

Definition dict_values (m : BindMap) : list string := m.*2.

(** The loop [while dest in bind_map.values(): counter += 1; dest =
    f"{preferred}_{counter}"].  [fuel] bounds the number of iterations; the
    caller passes the number of bound values, which the loop never exceeds
    (lemma [probe_spec]). *)
Fixpoint probe (fuel : nat) (preferred : string) (taken : list string)
    (counter : nat) (dest : string) : string :=
  if bool_decide (dest ∈ taken) then
    match fuel with
    | O => dest
    | S fuel' =>
        let counter := S counter in
        probe fuel' preferred taken counter (preferred +:+ "_" +:+ pretty counter)
    end
  else dest.

Section Allocator.
(** [Path.resolve()]: the canonical absolute path, as the filesystem of
    the run decides it. *)
Variable resolve : Path → Path.

(** [ensure_bind] of [generate_boltz_command] and of
    [generate_chai_command] (the two closures are the same text).  The
    closure's [bind_map] is passed in and the updated one returned. *)
Definition ensure_bind (bind_map : BindMap) (path : Path) (preferred : string)
    : string * BindMap :=
  let path := resolve path in
  match dict_get bind_map path with
  | Some dest => (dest, bind_map)
  | None =>
      let dest :=
        probe (length bind_map) preferred (dict_values bind_map) 1 preferred in
      (dest, dict_set bind_map path dest)
  end.

(** A finite sequence of requests served by one allocator. *)
Fixpoint allocate (bind_map : BindMap) (requests : list (Path * string))
    : list string * BindMap :=
  match requests with
  | [] => ([], bind_map)
  | (path, preferred) :: rest =>
      let '(dest, bind_map) := ensure_bind bind_map path preferred in
      let '(dests, bind_map) := allocate bind_map rest in
      (dest :: dests, bind_map)
  end.
End Allocator.

(** The [k]-th name the loop of [ensure_bind] tries. *)
Definition candidate (preferred : string) (k : nat) : string :=
  if decide (k = 1) then preferred else preferred +:+ "_" +:+ pretty k.

(** [dest] is the first of [preferred], [preferred_2], [preferred_3], ...
    that is not among the names [taken]. *)
Definition disambiguates (preferred : string) (taken : list string)
    (dest : string) : Prop :=
  ∃ k : nat, 1 ≤ k ∧ dest = candidate preferred k ∧ (dest ∉ taken) ∧
    ∀ j, 1 ≤ j < k → candidate preferred j ∈ taken.

(** No host path is bound twice and no mount name is used twice. *)
Definition bijective (m : BindMap) : Prop := NoDup m.*1 ∧ NoDup m.*2.

(** The entries of a bind map that bind the host path [k]. *)
Definition entries_of (m : BindMap) (k : Path) : BindMap :=
  filter (λ e, e.1 = k) m.

(** ** A filesystem without symbolic links

    There [Path.resolve()] is lexical: a relative path is taken from the
    working directory [cwd], [".."] drops the component before it (the
    root is its own parent) and ["."] is dropped.  The examples run in
    this filesystem. *)
Definition lexical_step (acc : Path) (c : string) : Path :=
  if bool_decide (c = "..") then
    (if bool_decide (length acc ≤ 1) then acc else removelast acc)
  else if bool_decide (c = ".") then acc
  else acc ++ [c].

Definition lexical_resolve (cwd : Path) (p : Path) : Path :=
  let absolute := if is_absolute p then p else cwd ++ p in
  fold_left lexical_step (tail absolute) ["/"%string].

(** ** Text and bytes

    A byte string is a [string]; a Python [str] is represented by its
    UTF-8 encoding, so that [bytes.decode()] checks that the bytes are
    well-formed UTF-8 and keeps them.  What writing a text to a file
    opened in text mode stores depends on the locale and the platform: it
    is the [encode] of the surroundings of the run. *)

Inductive exn :=
| FileNotFoundError
| FileExistsError
| NotADirectoryError
| IsADirectoryError
| PermissionError
| AssertionError
| UnicodeDecodeError
| UnicodeEncodeError.

#[global] Instance exn_eq_dec : EqDecision exn.
Proof. solve_decision. Defined.

Definition in_range (lo hi : N) (a : ascii) : bool :=
  ((lo <=? N_of_ascii a) && (N_of_ascii a <=? hi))%N.

(** A continuation byte, 80..BF. *)
Definition continuation : ascii → bool := in_range 128 191.

(** The first two bytes of a well-formed three-byte sequence. *)
Definition lead3 (a b : ascii) : bool :=
  in_range 224 224 a && in_range 160 191 b
  || in_range 225 236 a && continuation b
  || in_range 237 237 a && in_range 128 159 b
  || in_range 238 239 a && continuation b.

(** The first two bytes of a well-formed four-byte sequence. *)
Definition lead4 (a b : ascii) : bool :=
  in_range 240 240 a && in_range 144 191 b
  || in_range 241 243 a && continuation b
  || in_range 244 244 a && in_range 128 143 b.

(** Well-formed UTF-8: what the strict decoder accepts. *)
Fixpoint utf8_valid (s : string) : bool :=
  match s with
  | EmptyString => true
  | String a s1 =>
      if in_range 0 127 a then utf8_valid s1 else
      match s1 with
      | EmptyString => false
      | String b s2 =>
          if in_range 194 223 a then continuation b && utf8_valid s2 else
          match s2 with
          | EmptyString => false
          | String c s3 =>
              if lead3 a b then continuation c && utf8_valid s3 else
              match s3 with
              | EmptyString => false
              | String d s4 =>
                  lead4 a b && continuation c && continuation d && utf8_valid s4
              end
          end
      end
  end.

(** [b.decode()]. *)
Definition decode (b : string) : exn + string :=
  if utf8_valid b then inr b else inl UnicodeDecodeError.

(** [needle in s] on strings. *)
Fixpoint contains (needle s : string) : bool :=
  String.prefix needle s ||
  match s with
  | EmptyString => false
  | String _ s' => contains needle s'
  end.

(** Iterating over a binary stream yields its lines, each with its
    newline, the last one possibly without. *)
Fixpoint readlines (s : string) : list string :=
  match s with
  | EmptyString => []
  | String a s' =>
      if bool_decide (a = "010"%char) then String a EmptyString :: readlines s'
      else match readlines s' with
           | [] => [String a EmptyString]
           | l :: ls => String a l :: ls
           end
  end.

(** ** The filesystem

    The filesystem records what is at each canonical path: a list of
    entries of which the latest one for a path counts.  Every operation
    reaches a location through [resolve]. *)

Inductive node :=
| Dir
| File (content : string).

#[global] Instance node_eq_dec : EqDecision node.
Proof. solve_decision. Defined.

Record FS := { entries : list (Path * node) }.

Fixpoint find_entry (l : list (Path * node)) (p : Path) : option node :=
  match l with
  | [] => None
  | (q, n) :: l' => if decide (q = p) then Some n else find_entry l' p
  end.

#[global] Instance fs_lookup : Lookup Path node FS :=
  λ p fs, find_entry (entries fs) p.

#[global] Instance fs_insert : Insert Path node FS :=
  λ p n fs, {| entries := (p, n) :: entries fs |}.

#[global] Instance fs_empty : Empty FS := {| entries := [] |}.

(** What [subprocess.Popen(cmd, ...)] run to completion does: it raises
    (the executable is missing), or the process exits with a return code,
    its standard output and standard error, and the filesystem as the
    process leaves it. *)
Inductive popen_result :=
| SpawnFailed (e : exn)
| Exited (returncode : Z) (stdout stderr : string) (fs : FS).

(** The surroundings of a run. *)
Record Env := {
  (** [Path.resolve()] *)
  resolve : Path → Path;
  (** [shutil.which] *)
  which : string → option string;
  (** [Path(__file__).parent] of [run_chai1.py] *)
  chai_dir : Path;
  (** [subprocess.Popen] on the given filesystem *)
  popen : FS → list string → popen_result;
  (** [BoltzYaml.write_yaml], from [abcfold.boltz.af3_to_boltz] *)
  write_yaml : FS → Path → exn + FS;
  (** The text layer of a file opened with [open(path, "w")]: the bytes
      that writing a text stores, by the encoding of the locale and the
      newline convention of the platform, or the [UnicodeEncodeError] it
      raises.  On a POSIX system with a UTF-8 locale these are the bytes
      of the text itself. *)
  encode : string → exn + string;
}.

Section FileSystem.
Context (E : Env).

(** [p.exists()] *)
Definition path_exists (fs : FS) (p : Path) : bool :=
  bool_decide (is_Some (fs !! resolve E p)).

(** [p.is_dir()] *)
Definition is_dir (fs : FS) (p : Path) : bool :=
  bool_decide (fs !! resolve E p = Some Dir).

(** [os.mkdir(p)] *)
Definition os_mkdir (fs : FS) (p : Path) : exn + FS :=
  match fs !! resolve E (parent p) with
  | None => inl FileNotFoundError
  | Some (File _) => inl NotADirectoryError
  | Some Dir =>
      match fs !! resolve E p with
      | Some _ => inl FileExistsError
      | None => inr (<[resolve E p := Dir]> fs)
      end
  end.

(** [p.mkdir(parents=True, exist_ok=True)], as [pathlib] writes it: try
    [os.mkdir]; on [FileNotFoundError] make the parent the same way and
    try once more; on another [OSError] succeed if the directory is
    there.  [fuel] bounds the climb to the parents; [length p] is
    enough. *)
Fixpoint mkdir_parents (fuel : nat) (fs : FS) (p : Path) : exn + FS :=
  match os_mkdir fs p with
  | inr fs' => inr fs'
  | inl FileNotFoundError =>
      if decide (parent p = p) then inl FileNotFoundError else
      match fuel with
      | O => inl FileNotFoundError
      | S fuel' =>
          match mkdir_parents fuel' fs (parent p) with
          | inl e => inl e
          | inr fs1 =>
              match os_mkdir fs1 p with
              | inr fs2 => inr fs2
              | inl FileNotFoundError => inl FileNotFoundError
              | inl e => if is_dir fs1 p then inr fs1 else inl e
              end
          end
      end
  | inl e => if is_dir fs p then inr fs else inl e
  end.

Definition mkdir (fs : FS) (p : Path) : exn + FS :=
  mkdir_parents (length p) fs p.

(** [open(p, "w")]: the file is created or truncated. *)
Definition open_w (fs : FS) (p : Path) : exn + FS :=
  match fs !! resolve E (parent p) with
  | None => inl FileNotFoundError
  | Some (File _) => inl NotADirectoryError
  | Some Dir =>
      match fs !! resolve E p with
      | Some Dir => inl IsADirectoryError
      | _ => inr (<[resolve E p := File EmptyString]> fs)
      end
  end.

(** The file just opened holds [bytes] once it is closed. *)
Definition f_write (fs : FS) (p : Path) (bytes : string) : FS :=
  <[resolve E p := File bytes]> fs.
End FileSystem.

(** ** The command builders *)

(** Truth value of an [Optional[str]]: [None] and [""] are false. *)
Definition truthy (o : option string) : bool :=
  match o with
  | Some s => negb (bool_decide (s = EmptyString))
  | None => false
  end.

(** [for src, dst in bind_map.items(): cmd += ["--bind", f"{str(src)}:{dst}"]] *)
Definition bind_flags (bind_map : BindMap) : list string :=
  mbind (M := list) (λ '(src, dst), ["--bind"; str src +:+ ":" +:+ dst]%string) bind_map.

Section Builders.
Context (E : Env).

(** [_resolve_container_runtime], the same in both files. *)
Definition _resolve_container_runtime : exn + string :=
  let runtime :=
    if truthy (which E "apptainer") then which E "apptainer"
    else which E "singularity" in
  match runtime with
  | Some r => if truthy runtime then inr r else inl FileNotFoundError
  | None => inl FileNotFoundError
  end.

Definition generate_boltz_command (input_yaml output_dir : Path)
    (number_of_models num_recycles seed : Z) (sif_path : option Path)
    : exn + list string :=
  let input_yaml := resolve E input_yaml in
  let output_dir := resolve E output_dir in
  match sif_path with
  | Some sif_path =>
      let sif := resolve E sif_path in
      match _resolve_container_runtime with
      | inl e => inl e
      | inr runtime =>
          let bind_map : BindMap := [] in
          let '(input_mount, bind_map) :=
            ensure_bind (resolve E) bind_map (parent input_yaml) "/input" in
          let '(output_mount, bind_map) :=
            ensure_bind (resolve E) bind_map output_dir "/output" in
          let cmd := [runtime; "exec"; "--nv"]%string in
          let cmd := cmd ++ bind_flags bind_map in
          let cmd := cmd ++ [
            str sif;
            "boltz";
            "predict";
            input_mount +:+ "/" +:+ name input_yaml;
            "--out_dir";
            output_mount;
            "--override";
            "--write_full_pae";
            "--write_full_pde";
            "--diffusion_samples";
            pretty number_of_models;
            "--recycling_steps";
            pretty num_recycles;
            "--seed";
            pretty seed
          ]%string in
          inr cmd
      end
  | None =>
      inr [
        "boltz";
        "predict";
        str input_yaml;
        "--out_dir";
        str output_dir;
        "--override";
        "--write_full_pae";
        "--write_full_pde";
        "--diffusion_samples";
        pretty number_of_models;
        "--recycling_steps";
        pretty num_recycles;
        "--seed";
        pretty seed
      ]%string
  end.

Definition generate_boltz_test_command (sif_path : option Path)
    : exn + list string :=
  match sif_path with
  | Some sif_path =>
      match _resolve_container_runtime with
      | inl e => inl e
      | inr runtime =>
          inr [runtime; "exec"; "--nv"; str (resolve E sif_path);
               "boltz"; "predict"; "--help"]%string
      end
  | None => inr ["boltz"; "predict"; "--help"]%string
  end.

(** The filesystem is only read, by the [exists()] tests. *)
Definition generate_chai_command (fs : FS)
    (input_fasta msa_dir : Path) (input_constraints : option Path)
    (output_dir : Path) (number_of_models num_recycles seed : Z)
    (use_templates_server : bool) (template_hits_path : option Path)
    (sif_path : option Path) : exn + list string :=
  let chai_exe := joinpath (chai_dir E) "chai.py" in
  let constraints_path := input_constraints in
  let template_path := template_hits_path in
  match sif_path with
  | Some sif_path =>
      let sif := resolve E sif_path in
      match _resolve_container_runtime with
      | inl e => inl e
      | inr runtime =>
          let bind_map : BindMap := [] in
          let '(chai_mount, bind_map) :=
            ensure_bind (resolve E) bind_map (parent chai_exe) "/abcfold_chai" in
          let '(input_mount, bind_map) :=
            ensure_bind (resolve E) bind_map (parent input_fasta) "/input" in
          let '(output_mount, bind_map) :=
            ensure_bind (resolve E) bind_map output_dir "/output" in
          let '(msa_mount, bind_map) :=
            if path_exists E fs msa_dir then
              let '(m, bind_map) := ensure_bind (resolve E) bind_map msa_dir "/msa" in
              (Some m, bind_map)
            else (None, bind_map) in
          let '(constraint_arg, bind_map) :=
            match constraints_path with
            | Some constraints_path =>
                if path_exists E fs constraints_path then
                  let '(constraint_mount, bind_map) :=
                    ensure_bind (resolve E) bind_map (parent constraints_path)
                      "/constraints" in
                  (Some (constraint_mount +:+ "/" +:+ name constraints_path), bind_map)
                else (None, bind_map)
            | None => (None, bind_map)
            end in
          let '(template_arg, bind_map) :=
            match template_path with
            | Some template_path =>
                if path_exists E fs template_path then
                  let '(template_mount, bind_map) :=
                    ensure_bind (resolve E) bind_map (parent template_path)
                      "/templates" in
                  (Some (template_mount +:+ "/" +:+ name template_path), bind_map)
                else (None, bind_map)
            | None => (None, bind_map)
            end in
          let cmd := [runtime; "exec"; "--nv"]%string in
          let cmd := cmd ++ bind_flags bind_map in
          let cmd := cmd ++ [
            str sif;
            "python";
            chai_mount +:+ "/chai.py";
            "fold";
            input_mount +:+ "/" +:+ name input_fasta
          ]%string in
          let cmd :=
            if truthy msa_mount
            then cmd ++ ["--msa-directory"%string; default EmptyString msa_mount]
            else cmd in
          let cmd :=
            match constraint_arg with
            | Some constraint_arg => cmd ++ ["--constraint-path"%string; constraint_arg]
            | None => cmd
            end in
          let cmd := cmd ++ [
            "--num-diffn-samples";
            pretty number_of_models;
            "--num-trunk-recycles";
            pretty num_recycles;
            "--seed";
            pretty seed
          ]%string in
          let cmd :=
            if use_templates_server then cmd ++ ["--use-templates-server"%string]
            else cmd in
          let cmd :=
            match template_arg with
            | Some template_arg => cmd ++ ["--template-hits-path"%string; template_arg]
            | None => cmd
            end in
          let cmd := cmd ++ [output_mount] in
          inr cmd
      end
  | None =>
      let cmd := ["python"; str chai_exe; "fold"; str input_fasta]%string in
      let cmd :=
        if path_exists E fs msa_dir
        then cmd ++ ["--msa-directory"%string; str msa_dir]
        else cmd in
      let cmd :=
        match constraints_path with
        | Some constraints_path =>
            if path_exists E fs constraints_path
            then cmd ++ ["--constraint-path"%string; str constraints_path]
            else cmd
        | None => cmd
        end in
      let cmd := cmd ++ ["--num-diffn-samples"%string; pretty number_of_models] in
      let cmd := cmd ++ ["--num-trunk-recycles"%string; pretty num_recycles] in
      let cmd := cmd ++ ["--seed"%string; pretty seed] in
      if use_templates_server && bool_decide (is_Some template_path)
      then inl AssertionError
      else
        let cmd :=
          if bool_decide (which E "kalign" = None)
             && (use_templates_server || bool_decide (is_Some template_path))
          then cmd
          else
            let cmd :=
              if use_templates_server then cmd ++ ["--use-templates-server"%string]
              else cmd in
            match template_path with
            | Some template_path =>
                cmd ++ ["--template-hits-path"%string; str template_path]
            | None => cmd
            end in
        let cmd := cmd ++ [str output_dir] in
        inr cmd
  end.

Definition generate_chai_test_command (sif_path : option Path)
    : exn + list string :=
  let chai_exe := joinpath (chai_dir E) "chai.py" in
  match sif_path with
  | Some sif_path =>
      match _resolve_container_runtime with
      | inl e => inl e
      | inr runtime =>
          inr [runtime; "exec"; "--nv"; "--bind";
               str (resolve E (parent chai_exe)) +:+ ":/abcfold_chai";
               str (resolve E sif_path);
               "python"; "/abcfold_chai/chai.py"; "fold"; "--help"]%string
      end
  | None => inr ["python"; str chai_exe; "fold"; "--help"]%string
  end.
End Builders.

(** ** The run drivers

    A driver runs in a filesystem, logs what it does and ends in one of
    three ways: it goes on ([Ok]), the function returns a boolean
    ([Return]) or an exception leaves it ([Raise]). *)

Inductive event :=
(** the command builder is called for a seed *)
| Build (seed : Z)
(** [subprocess.Popen] is called with a command, in a filesystem *)
| Spawn (seed : Z) (cmd : list string) (fs : FS)
(** the process has exited: return code, the standard output the driver
    captured (if it captures it), standard error, filesystem left *)
| Exit (seed : Z) (returncode : Z) (stdout : option string) (stderr : string) (fs : FS)
(** a text has been written to a file opened for writing, which holds
    its encoding *)
| Write (path : Path) (text : string).

Inductive result (A : Type) :=
| Ok (a : A)
| Return (b : bool)
| Raise (e : exn).
Arguments Ok {A} a.
Arguments Return {A} b.
Arguments Raise {A} e.

Definition M (A : Type) : Type := FS → result A * FS * list event.

#[global] Instance M_ret : MRet M := λ A a fs, (Ok a, fs, []).

#[global] Instance M_bind : MBind M := λ A B f m fs,
  match m fs with
  | (Ok a, fs1, t1) => let '(r, fs2, t2) := f a fs1 in (r, fs2, t1 ++ t2)
  | (Return b, fs1, t1) => (Return b, fs1, t1)
  | (Raise e, fs1, t1) => (Raise e, fs1, t1)
  end.

Definition emit (ev : event) : M unit := λ fs, (Ok tt, fs, [ev]).
Definition get_fs : M FS := λ fs, (Ok fs, fs, []).
Definition put_fs (fs : FS) : M unit := λ _, (Ok tt, fs, []).
Definition return_ {A} (b : bool) : M A := λ fs, (Return b, fs, []).
Definition raise {A} (e : exn) : M A := λ fs, (Raise e, fs, []).

(** A step that raises or yields a value without touching the state. *)
Definition lift {A} (r : exn + A) : M A :=
  match r with
  | inl e => raise e
  | inr a => mret a
  end.

(** A step on the filesystem that raises or yields the new filesystem. *)
Definition update (f : FS → exn + FS) : M unit :=
  fs ← get_fs; fs' ← lift (f fs); put_fs fs'.

(** [for x in l: body(x)] *)
Fixpoint for_each {A} (l : list A) (body : A → M unit) : M unit :=
  match l with
  | [] => mret tt
  | x :: l' => body x;; for_each l' body
  end.

(** [stdout = ""; for line in proc.stdout: stdout += line.decode()] *)
Fixpoint capture (lines : list string) (stdout : string) : exn + string :=
  match lines with
  | [] => inr stdout
  | line :: lines' =>
      match decode line with
      | inl e => inl e
      | inr text => capture lines' (stdout +:+ text)
      end
  end.

Definition OOM : string := "WARNING: ran out of memory".

(** [p.stem]: the name without its last suffix. *)
Fixpoint rfind_dot (s : string) (i : nat) (found : option nat) : option nat :=
  match s with
  | EmptyString => found
  | String a s' =>
      rfind_dot s' (S i) (if bool_decide (a = "."%char) then Some i else found)
  end.

Definition stem (p : Path) : string :=
  match rfind_dot (name p) 0 None with
  | Some i =>
      if bool_decide (0 < i < String.length (name p) - 1)
      then String.substring 0 i (name p) else name p
  | None => name p
  end.

Section Drivers.
Context (E : Env).

(** The body of the seed loop of [run_boltz].  [proc.stdout] and
    [proc.stderr] are pipe objects, which are true. *)
Definition boltz_seed (input_json output_dir working_dir : Path) (test : bool)
    (number_of_models num_recycles : Z) (sif_path : option Path)
    (seed : Z) : M unit :=
  let out_file :=
    joinpath working_dir (stem input_json +:+ "_seed-" +:+ pretty seed +:+ ".yaml") in
  update (λ fs, write_yaml E fs out_file);;
  emit (Build seed);;
  cmd ← lift (if negb test
              then generate_boltz_command E out_file output_dir
                     number_of_models num_recycles seed sif_path
              else generate_boltz_test_command E sif_path);
  fs ← get_fs;
  emit (Spawn seed cmd fs);;
  match popen E fs cmd with
  | SpawnFailed e => raise e
  | Exited returncode out stderr fs' =>
      put_fs fs';;
      stdout ← lift (capture (readlines out) EmptyString);
      emit (Exit seed returncode (Some stdout) stderr fs');;
      if bool_decide (returncode ≠ 0%Z) then
        _ ← lift (decode stderr);
        let output_err_file := joinpath output_dir "boltz_error.log" in
        update (λ fs, open_w E fs output_err_file);;
        text ← lift (decode stderr);
        bytes ← lift (encode E text);
        fs ← get_fs;
        put_fs (f_write E fs output_err_file bytes);;
        emit (Write output_err_file text);;
        return_ false
      else if contains OOM stdout then return_ false
      else mret tt
  end.

(** The seed loop of [run_boltz] and the [return True] after it (lines
    58 to 106): [working_dir] and [seeds] are what the lines before the
    loop get from the temporary directory (or the output directory,
    under [save_input]) and from [BoltzYaml].  The outcome is that of
    the function; the filesystem is the one in which the loop is left,
    before the temporary directory of line 49 is removed. *)
Definition run_boltz (input_json output_dir working_dir : Path)
    (seeds : list Z) (test : bool) (number_of_models num_recycles : Z)
    (sif_path : option Path) : M unit :=
  for_each seeds
    (boltz_seed input_json output_dir working_dir test
       number_of_models num_recycles sif_path);;
  return_ true.

(** The body of the seed loop of [run_chai].  Standard output goes to
    the console and is not captured; [proc.stderr] is a pipe object,
    which is true. *)
Definition chai_seed (out_fasta msa_dir : Path) (out_constraints : option Path)
    (output_dir : Path) (test : bool) (number_of_models num_recycles : Z)
    (use_templates_server : bool) (template_hits_path : option Path)
    (sif_path : option Path) (seed : Z) : M unit :=
  let chai_output_dir := joinpath output_dir ("chai_output_seed-" +:+ pretty seed) in
  (if bool_decide (is_Some sif_path)
   then update (λ fs, mkdir E fs chai_output_dir)
   else mret tt);;
  emit (Build seed);;
  fs ← get_fs;
  cmd ← lift (if negb test
              then generate_chai_command E fs out_fasta msa_dir out_constraints
                     chai_output_dir number_of_models num_recycles seed
                     use_templates_server template_hits_path sif_path
              else generate_chai_test_command E sif_path);
  emit (Spawn seed cmd fs);;
  match popen E fs cmd with
  | SpawnFailed e => raise e
  | Exited returncode _ stderr fs' =>
      put_fs fs';;
      emit (Exit seed returncode None stderr fs');;
      if bool_decide (returncode ≠ 0%Z) then
        fs ← get_fs;
        let output_err_file :=
          if path_exists E fs chai_output_dir
          then joinpath chai_output_dir "chai_error.log"
          else joinpath (parent chai_output_dir) "chai_error.log" in
        update (λ fs, open_w E fs output_err_file);;
        text ← lift (decode stderr);
        bytes ← lift (encode E text);
        fs ← get_fs;
        put_fs (f_write E fs output_err_file bytes);;
        emit (Write output_err_file text);;
        return_ false
      else mret tt
  end.

(** The seed loop of [run_chai] and the [return True] after it (lines
    72 to 117): [out_fasta], [msa_dir], [out_constraints] and [seeds]
    are what [ChaiFasta] hands over.  The outcome is that of the
    function; the filesystem is the one in which the loop is left,
    before the temporary directory of line 58 is removed. *)
Definition run_chai (out_fasta msa_dir : Path) (out_constraints : option Path)
    (output_dir : Path) (seeds : list Z) (test : bool)
    (number_of_models num_recycles : Z) (use_templates_server : bool)
    (template_hits_path : option Path) (sif_path : option Path) : M unit :=
  for_each seeds
    (chai_seed out_fasta msa_dir out_constraints output_dir test
       number_of_models num_recycles use_templates_server
       template_hits_path sif_path);;
  return_ true.
End Drivers.

(** ** An example environment

    A POSIX machine with a UTF-8 locale, with [apptainer] and [kalign]
    installed, the working directory [/work] and no symbolic links.  The
    tool is a parameter. *)

Definition example_which (s : string) : option string :=
  if bool_decide (s = "apptainer") then Some "/usr/bin/apptainer"%string
  else if bool_decide (s = "kalign") then Some "/usr/bin/kalign"%string
  else None.

(** A [BoltzYaml.write_yaml] that stores a fixed document. *)
Definition example_write_yaml (resolve : Path → Path) (fs : FS) (p : Path)
    : exn + FS :=
  match fs !! resolve (parent p) with
  | Some Dir => inr (<[resolve p := File "version: 1"]> fs)
  | _ => inl FileNotFoundError
  end.

Definition example_env (tool : FS → list string → popen_result) : Env := {|
  resolve := lexical_resolve ["/"; "work"]%string;
  which := example_which;
  chai_dir := ["/"; "opt"; "abcfold"; "chai1"]%string;
  popen := tool;
  write_yaml := example_write_yaml (lexical_resolve ["/"; "work"]%string);
  encode := inr;
|}.




(** [/work/out] exists, [/work/new] does not. *)
Definition example_fs : FS := {| entries := [
    (["/"], Dir);
    (["/"; "tmp"], Dir);
    (["/"; "work"], Dir);
    (["/"; "work"; "out"], Dir);
    (["/"; "work"; "in"], Dir);
    (["/"; "work"; "in"; "job.fasta"], File ">A");
    (["/"; "work"; "in"; "hits.m8"], File "hit")
  ]%string |}.


(** A tool that exits with code 0 after printing the out-of-memory
    warning. *)
Definition runs_out_of_memory (fs : FS) (cmd : list string) : popen_result :=
  Exited 0 "WARNING: ran out of memory, skipping batch" "" fs.





(** A tool that always succeeds silently. *)
Definition always_succeeds (fs : FS) (cmd : list string) : popen_result :=
  Exited 0 "" "" fs.

(** ** Reading a trace *)

(** A seed is attempted: a command is built or spawned for it. *)
Definition attempts (ev : event) : Prop :=
  match ev with
  | Build _ | Spawn _ _ _ => True
  | _ => False
  end.

(** An exit that fails its seed: a nonzero return code, or the
    out-of-memory warning in the captured standard output. *)
Definition seed_failed (returncode : Z) (stdout : option string) : Prop :=
  returncode ≠ 0%Z ∨ ∃ out, stdout = Some out ∧ contains OOM out = true.

(** The seeds for which a command was built, and those for which a
    process was spawned, in order. *)
Definition built (t : list event) : list Z :=
  omap (λ ev, match ev with Build seed => Some seed | _ => None end) t.

Definition spawned (t : list event) : list Z :=
  omap (λ ev, match ev with Spawn seed _ _ => Some seed | _ => None end) t.

(** ** Reading a containerized command *)

(** The distinct elements of a list, in the order of their first
    occurrence. *)
Definition first_occurrences (l : list Path) : list Path :=
  foldl (λ acc x, if decide (x ∈ acc) then acc else acc ++ [x]) [] l.

(** The host directories the arguments of the containerized Boltz command
    refer to through a mount, with the mount names asked for them: the
    directory of the input file and the output directory (lines 144 to 156
    of [run_boltz.py]). *)
Definition boltz_requests (E : Env) (input_yaml output_dir : Path)
    : list (Path * string) :=
  [(parent (resolve E input_yaml), "/input"); (resolve E output_dir, "/output")]%string.

(** The same for the containerized Chai-1 command: the directory of
    [chai.py], the directory of the FASTA file, the output directory, and,
    each only if it exists, the MSA directory, the directory of the
    constraints file and the directory of the template hits file (lines
    156 to 196 of [run_chai1.py]). *)
Definition chai_requests (E : Env) (fs : FS) (input_fasta msa_dir : Path)
    (input_constraints : option Path) (output_dir : Path)
    (template_hits_path : option Path) : list (Path * string) :=
  [(parent (joinpath (chai_dir E) "chai.py"), "/abcfold_chai");
   (parent input_fasta, "/input");
   (output_dir, "/output")]%string
  ++ (if path_exists E fs msa_dir then [(msa_dir, "/msa"%string)] else [])
  ++ match input_constraints with
     | Some constraints_path =>
         if path_exists E fs constraints_path
         then [(parent constraints_path, "/constraints"%string)] else []
     | None => []
     end
  ++ match template_hits_path with
     | Some template_path =>
         if path_exists E fs template_path
         then [(parent template_path, "/templates"%string)] else []
     | None => []
     end.

(** The arguments [flags] are the [--bind host:mount] pairs of [binds],
    one pair for each entry and in the order of the entries: the
    arguments [2 i] and [2 i + 1] are the pair of entry [i], and there are
    no others. *)
Definition bind_pairs (binds : list (Path * string)) (flags : list string)
    : Prop :=
  length flags = 2 * length binds ∧
  ∀ i host mount, binds !! i = Some (host, mount) →
    flags !! (2 * i) = Some "--bind"%string ∧
    flags !! (2 * i + 1) = Some (str host +:+ ":" +:+ mount).

(** A command [cmd] for the image [sif_path] that refers to the host
    directories [referenced]: the runtime with [exec --nv], then one
    [--bind host:mount] pair for each distinct resolved directory, in the
    order in which they are first referred to, no host directory and no
    mount name twice, then the image and the tool's invocation, which
    holds no [--bind] and in which every mount name that is bound begins
    an argument. *)
Definition container_command (E : Env) (sif_path : Path)
    (referenced : list Path) (cmd : list string) : Prop :=
  ∃ (runtime : string) (binds : list (Path * string))
    (flags tool : list string),
    _resolve_container_runtime E = inr runtime ∧
    cmd = [runtime; "exec"; "--nv"]%string ++ flags
            ++ str (resolve E sif_path) :: tool ∧
    bind_pairs binds flags ∧
    binds.*1 = first_occurrences (resolve E <$> referenced) ∧
    bijective binds ∧
    ("--bind"%string ∉ tool) ∧
    Forall (λ mount, Exists (λ arg, ∃ rest, arg = mount +:+ rest) tool)
      binds.*2.

(** A mount name that is an absolute path in the container. *)
Definition rooted (s : string) : Prop := ∃ s', s = String "/" s'.

(** ** Further examples *)

(** A machine with only [singularity], and one with no container runtime
    and no [kalign]. *)
Definition singularity_env : Env := {|
  resolve := lexical_resolve ["/"; "work"]%string;
  which := λ s, if bool_decide (s = "singularity")
                then Some "/usr/bin/singularity"%string else None;
  chai_dir := ["/"; "opt"; "abcfold"; "chai1"]%string;
  popen := always_succeeds;
  write_yaml := example_write_yaml (lexical_resolve ["/"; "work"]%string);
  encode := inr;
|}.

Definition plain_env (tool : FS → list string → popen_result) : Env := {|
  resolve := lexical_resolve ["/"; "work"]%string;
  which := λ _, None;
  chai_dir := ["/"; "opt"; "abcfold"; "chai1"]%string;
  popen := tool;
  write_yaml := example_write_yaml (lexical_resolve ["/"; "work"]%string);
  encode := inr;
|}.

(** A tool that is not installed: [subprocess.Popen] raises. *)
Definition not_installed (fs : FS) (cmd : list string) : popen_result :=
  SpawnFailed FileNotFoundError.


(** The command and the filesystem of the [k]-th event of a trace, when
    it is a [Spawn]. *)
Definition spawn_cmd (t : list event) (k : nat) : list string :=
  match t !! k with
  | Some (Spawn _ cmd _) => cmd
  | _ => []
  end.

Definition spawn_fs (t : list event) (k : nat) : FS :=
  match t !! k with
  | Some (Spawn _ _ fs) => fs
  | _ => ∅
  end.

(** The files a run has written, with their text, in order. *)
Definition writes (t : list event) : list (Path * string) :=
  omap (λ ev, match ev with Write p text => Some (p, text) | _ => None end) t.

(** The seeds whose process has exited, in order. *)
Definition exited (t : list event) : list Z :=
  omap (λ ev, match ev with Exit seed _ _ _ _ => Some seed | _ => None end) t.

(** Line 59 of [run_boltz.py]: the input file of a seed. *)
Definition out_file (working_dir input_json : Path) (seed : Z) : Path :=
  joinpath working_dir (stem input_json +:+ "_seed-" +:+ pretty seed +:+ ".yaml").

(** Line 73 of [run_chai1.py]: the output directory of a seed. *)
Definition chai_output_dir (output_dir : Path) (seed : Z) : Path :=
  joinpath output_dir ("chai_output_seed-" +:+ pretty seed).

(** The command [run_boltz] builds for a seed (lines 63 to 74). *)
Definition boltz_cmd (E : Env) (input_json output_dir working_dir : Path)
    (test : bool) (number_of_models num_recycles : Z) (sif_path : option Path)
    (seed : Z) : exn + list string :=
  if negb test
  then generate_boltz_command E (out_file working_dir input_json seed)
         output_dir number_of_models num_recycles seed sif_path
  else generate_boltz_test_command E sif_path.

(** The command [run_chai] builds for a seed (lines 78 to 93), in the
    filesystem of that moment. *)
Definition chai_cmd (E : Env) (fs : FS) (out_fasta msa_dir : Path)
    (out_constraints : option Path) (output_dir : Path) (test : bool)
    (number_of_models num_recycles : Z) (use_templates_server : bool)
    (template_hits_path sif_path : option Path) (seed : Z)
    : exn + list string :=
  if negb test
  then generate_chai_command E fs out_fasta msa_dir out_constraints
         (chai_output_dir output_dir seed) number_of_models num_recycles seed
         use_templates_server template_hits_path sif_path
  else generate_chai_test_command E sif_path.

(** The three things a run does for a seed. *)
Inductive phase := Building | Spawning | Waiting.

#[global] Instance phase_eq_dec : EqDecision phase.
Proof. solve_decision. Defined.

(** What an event does for a seed: its command is built, its process is
    spawned, or the exit of its process is reached. *)
Definition step_of (ev : event) : option (Z * phase) :=
  match ev with
  | Build seed => Some (seed, Building)
  | Spawn seed _ _ => Some (seed, Spawning)
  | Exit seed _ _ _ _ => Some (seed, Waiting)
  | Write _ _ => None
  end.

Definition steps (t : list event) : list (Z * phase) := omap step_of t.

(** One seed after the other, and for each seed the command built, then
    the process spawned, then its exit. *)
Fixpoint schedule (seeds : list Z) : list (Z * phase) :=
  match seeds with
  | [] => []
  | seed :: seeds' =>
      (seed, Building) :: (seed, Spawning) :: (seed, Waiting) :: schedule seeds'
  end.

(** What one iteration of a seed loop leaves behind: an iteration that
    goes on has built, spawned and waited for one command, the seed's, in
    this order, and written nothing; no iteration returns [True]; every
    iteration does an initial part of these three steps; at most one file
    is written, by an iteration that returns [False]; the iteration goes
    on exactly when the exit does not fail the seed; after a spawn no
    command is built or spawned. *)
Definition orderly (seed : Z) (r : result unit) (t : list event) : Prop :=
  (r = Ok tt →
   steps t = schedule [seed] ∧
   built t = [seed] ∧ spawned t = [seed] ∧ exited t = [seed] ∧ writes t = []) ∧
  r ≠ Return true ∧
  steps t `prefix_of` schedule [seed] ∧
  built t `prefix_of` [seed] ∧
  spawned t `prefix_of` built t ∧
  exited t `prefix_of` spawned t ∧
  (writes t = [] ∨ r = Return false ∧ ∃ p text, writes t = [(p, text)]) ∧
  (∀ s c o err f, Exit s c o err f ∈ t → ¬ seed_failed c o ↔ r = Ok tt) ∧
  (∀ t1 s cmd f t2, t = t1 ++ Spawn s cmd f :: t2 →
     Forall (λ ev, ¬ attempts ev) t2).

(** An event logged by an iteration of a loop that goes on to the next
    seed. *)
Definition went_on (body : Z → M unit) (ev : event) : Prop :=
  ∃ x fs0 fs1 tx, body x fs0 = (Ok tt, fs1, tx) ∧ ev ∈ tx.

(** * Properties *)

(** ** Paths *)

Lemma parent_joinpath (p : Path) (n : string) :
  n ≠ "/" → parent (joinpath p n) = p.
Proof.
  intros Hn. unfold parent, joinpath.
  destruct p as [|s p]; simpl.
  - unfold is_absolute. simpl. by rewrite bool_decide_eq_false_2.
  - replace (bool_decide (S (length (p ++ [n])) = 1)) with false.
    + rewrite andb_false_r.
      apply (removelast_last (s :: p) n).
    + symmetry. apply bool_decide_eq_false. rewrite length_app. simpl. lia.
Qed.

(** ** The dictionary *)

Lemma dict_get_Some_elem (m : BindMap) (k : Path) (v : string) :
  dict_get m k = Some v → (k, v) ∈ m.
Proof.
  induction m as [|[k' v'] m IH]; simpl; [done|].
  case_decide; intros Hget.
  - simplify_eq. left.
  - right. by apply IH.
Qed.

Lemma dict_get_None (m : BindMap) (k : Path) :
  dict_get m k = None ↔ k ∉ m.*1.
Proof.
  induction m as [|[k' v'] m IH]; simpl.
  - split; [intros _; apply not_elem_of_nil | done].
  - case_decide; subst.
    + split; [done|]. intros []. left.
    + rewrite IH, not_elem_of_cons. split; [intros ?; split; [congruence|done] | by intros [_ ?]].
Qed.

Lemma dict_get_elem (m : BindMap) (k : Path) (v : string) :
  NoDup m.*1 → (k, v) ∈ m → dict_get m k = Some v.
Proof.
  induction m as [|[k' v'] m IH]; simpl; intros Hnd Hin.
  - by apply elem_of_nil in Hin.
  - apply NoDup_cons in Hnd as [Hk Hnd].
    apply elem_of_cons in Hin as [Heq|Hin].
    + simplify_eq. by rewrite decide_True.
    + case_decide; [|by apply IH]. subst.
      destruct Hk. apply list_elem_of_fmap. by exists (k, v).
Qed.

Lemma dict_set_fresh (m : BindMap) (k : Path) (v : string) :
  k ∉ m.*1 → dict_set m k v = m ++ [(k, v)].
Proof.
  induction m as [|[k' v'] m IH]; simpl; [done|].
  rewrite not_elem_of_cons. intros [Hne Hk].
  rewrite decide_False by done. by rewrite IH.
Qed.

Lemma dict_get_app_l (m m' : BindMap) (k : Path) (v : string) :
  dict_get m k = Some v → dict_get (m ++ m') k = Some v.
Proof.
  induction m as [|[k' v'] m IH]; simpl; [done|].
  case_decide; [done|]. apply IH.
Qed.

Lemma dict_get_snoc (m : BindMap) (k : Path) (v : string) :
  k ∉ m.*1 → dict_get (m ++ [(k, v)]) k = Some v.
Proof.
  induction m as [|[k' v'] m IH]; simpl.
  - intros _. by rewrite decide_True.
  - rewrite not_elem_of_cons. intros [Hne Hk].
    rewrite decide_False by done. by apply IH.
Qed.

Lemma values_key_unique (m : BindMap) (k1 k2 : Path) (v : string) :
  NoDup m.*2 → (k1, v) ∈ m → (k2, v) ∈ m → k1 = k2.
Proof.
  induction m as [|[k' v'] m IH]; simpl; intros Hnd H1 H2.
  - by apply elem_of_nil in H1.
  - apply NoDup_cons in Hnd as [Hv Hnd].
    assert (∀ k, (k, v') ∈ m → False) as Hno.
    { intros k Hk. apply Hv, list_elem_of_fmap. by exists (k, v'). }
    apply elem_of_cons in H1 as [E1|H1], H2 as [E2|H2]; simplify_eq.
    + done.
    + by destruct (Hno k2).
    + by destruct (Hno k1).
    + by apply IH.
Qed.

(** ** The probing loop *)

Lemma string_length_app (s1 s2 : string) :
  String.length (s1 +:+ s2) = String.length s1 + String.length s2.
Proof. induction s1 as [|a s1 IH]; simpl; [done|]. by rewrite IH. Qed.

Lemma candidate_inj (preferred : string) (j k : nat) :
  1 ≤ j → 1 ≤ k → candidate preferred j = candidate preferred k → j = k.
Proof.
  unfold candidate. intros Hj Hk.
  repeat case_decide; subst; try done; intros Heq.
  - apply (f_equal String.length) in Heq.
    rewrite string_length_app in Heq. simpl in Heq. lia.
  - apply (f_equal String.length) in Heq.
    rewrite string_length_app in Heq. simpl in Heq. lia.
  - apply (inj (String.append preferred)) in Heq.
    apply (inj (String.append "_")) in Heq.
    by apply (inj pretty) in Heq.
Qed.

Lemma candidates_bounded (preferred : string) (taken : list string) (k : nat) :
  (∀ j, 1 ≤ j ≤ k → candidate preferred j ∈ taken) → k ≤ length taken.
Proof.
  intros Hall.
  assert (NoDup (candidate preferred <$> seq 1 k)) as Hnd.
  { apply NoDup_fmap_2_strong; [|apply NoDup_seq].
    intros x y Hx%elem_of_seq Hy%elem_of_seq. apply candidate_inj; lia. }
  assert (candidate preferred <$> seq 1 k ⊆+ taken) as Hsub.
  { apply NoDup_submseteq; [done|].
    intros x (j & -> & Hj%elem_of_seq)%list_elem_of_fmap. apply Hall. lia. }
  apply submseteq_length in Hsub.
  by rewrite length_fmap, length_seq in Hsub.
Qed.

(** The loop stops within the fuel it is given, on the first candidate
    that no bound value uses. *)
Lemma probe_spec (preferred : string) (taken : list string) (fuel k : nat) :
  1 ≤ k →
  (∀ j, 1 ≤ j < k → candidate preferred j ∈ taken) →
  length taken < k + fuel →
  ∃ k', k ≤ k' ∧
    (probe fuel preferred taken k (candidate preferred k) = candidate preferred k') ∧
    (candidate preferred k' ∉ taken) ∧
    (∀ j, 1 ≤ j < k' → candidate preferred j ∈ taken).
Proof.
  revert k. induction fuel as [|fuel IH]; intros k Hk Hbelow Hlen; simpl.
  - case_bool_decide as Hin.
    + exfalso. assert (k ≤ length taken); [|lia].
      apply candidates_bounded with preferred. intros j Hj.
      destruct (decide (j = k)) as [->|]; [done|]. apply Hbelow. lia.
    + exists k. eauto.
  - case_bool_decide as Hin.
    + destruct (IH (S k)) as (k' & Hle & Heq & Hfree & Hall); [lia| |lia|].
      { intros j Hj. destruct (decide (j = k)) as [->|]; [done|].
        apply Hbelow. lia. }
      exists k'. split; [lia|]. split; [|done].
      rewrite <- Heq. unfold candidate at 1. by rewrite decide_False by lia.
    + exists k. eauto.
Qed.

Lemma probe_free (preferred : string) (taken : list string) :
  let dest := probe (length taken) preferred taken 1 preferred in
  (dest ∉ taken) ∧ disambiguates preferred taken dest.
Proof.
  destruct (probe_spec preferred taken (length taken) 1)
    as (k & Hk & Heq & Hfree & Hbelow); [lia|intros; lia|lia|].
  change (candidate preferred 1) with preferred in Heq.
  simpl. rewrite Heq. split; [done|]. by exists k.
Qed.

Lemma disambiguates_ext (preferred : string) (taken taken' : list string)
    (dest : string) :
  (∀ v, v ∈ taken ↔ v ∈ taken') →
  disambiguates preferred taken dest → disambiguates preferred taken' dest.
Proof.
  intros Hext (k & Hk & Heq & Hfree & Hbelow). exists k.
  split; [done|]. split; [done|]. split; [by rewrite <- Hext|].
  intros j Hj. by apply Hext, Hbelow.
Qed.

Lemma disambiguates_rooted (preferred : string) (taken : list string)
    (dest : string) :
  (∃ s, preferred = String "/" s) → disambiguates preferred taken dest →
  ∃ s, dest = String "/" s.
Proof.
  intros [s ->] (k & _ & -> & _). unfold candidate. case_decide; by eexists.
Qed.

(** ** The allocator *)

Section AllocatorProperties.
Variable resolve : Path → Path.

(** One request either finds its path bound and changes nothing, or
    appends one entry under a mount name that was free. *)
Lemma ensure_bind_cases (m : BindMap) (path : Path) (preferred : string) :
  (dict_get m (resolve path) = Some (ensure_bind resolve m path preferred).1 ∧
   (ensure_bind resolve m path preferred).2 = m) ∨
  ((resolve path ∉ m.*1) ∧
   ((ensure_bind resolve m path preferred).1 ∉ m.*2) ∧
   disambiguates preferred m.*2 (ensure_bind resolve m path preferred).1 ∧
   (ensure_bind resolve m path preferred).2 =
     m ++ [(resolve path, (ensure_bind resolve m path preferred).1)]).
Proof.
  unfold ensure_bind.
  destruct (dict_get m (resolve path)) as [dest|] eqn:Hget; simpl.
  - by left.
  - right. apply dict_get_None in Hget.
    destruct (probe_free preferred (dict_values m)) as [Hfree Hdis].
    unfold dict_values in *. rewrite length_fmap in Hfree, Hdis.
    by rewrite dict_set_fresh.
Qed.

Lemma ensure_bind_bijective (m : BindMap) (path : Path) (preferred : string) :
  bijective m → bijective (ensure_bind resolve m path preferred).2.
Proof.
  intros [Hk Hv].
  destruct (ensure_bind_cases m path preferred)
    as [[_ ->]|(Hfresh & Hfree & _ & ->)]; [done|].
  split; rewrite fmap_app; simpl; apply NoDup_app; (split; [done|]);
    (split; [|apply NoDup_singleton]);
    intros x Hx ->%list_elem_of_singleton; done.
Qed.

Lemma ensure_bind_get (m : BindMap) (path : Path) (preferred : string) :
  dict_get (ensure_bind resolve m path preferred).2 (resolve path)
  = Some (ensure_bind resolve m path preferred).1.
Proof.
  destruct (ensure_bind_cases m path preferred)
    as [[Hget ->]|(Hfresh & _ & _ & ->)]; [done|].
  by apply dict_get_snoc.
Qed.

Lemma ensure_bind_keeps (m : BindMap) (path : Path) (preferred : string)
    (k : Path) (v : string) :
  dict_get m k = Some v →
  dict_get (ensure_bind resolve m path preferred).2 k = Some v.
Proof.
  destruct (ensure_bind_cases m path preferred)
    as [[_ ->]|(_ & _ & _ & ->)]; [done|].
  apply dict_get_app_l.
Qed.

Lemma ensure_bind_keys (m : BindMap) (path : Path) (preferred : string)
    (k : Path) :
  k ∈ (ensure_bind resolve m path preferred).2.*1 ↔ k ∈ m.*1 ∨ k = resolve path.
Proof.
  destruct (ensure_bind_cases m path preferred)
    as [[Hget ->]|(_ & _ & _ & ->)].
  - split; [by left|]. intros [?| ->]; [done|].
    apply dict_get_Some_elem in Hget. apply list_elem_of_fmap.
    by eexists (_, _).
  - rewrite fmap_app, elem_of_app. simpl. by rewrite list_elem_of_singleton.
Qed.

Lemma allocate_cons (m : BindMap) (path : Path) (preferred : string)
    (rest : list (Path * string)) :
  allocate resolve m ((path, preferred) :: rest) =
    ((ensure_bind resolve m path preferred).1
       :: (allocate resolve (ensure_bind resolve m path preferred).2 rest).1,
     (allocate resolve (ensure_bind resolve m path preferred).2 rest).2).
Proof.
  simpl. destruct (ensure_bind resolve m path preferred) as [d m1]. simpl.
  by destruct (allocate resolve m1 rest).
Qed.

Lemma allocate_length (requests : list (Path * string)) (m : BindMap) :
  length (allocate resolve m requests).1 = length requests.
Proof.
  revert m. induction requests as [|[p pref] rest IH]; intros m; [done|].
  rewrite allocate_cons. simpl. by rewrite IH.
Qed.

Lemma allocate_bijective (requests : list (Path * string)) (m : BindMap) :
  bijective m → bijective (allocate resolve m requests).2.
Proof.
  revert m. induction requests as [|[p pref] rest IH]; intros m Hm; [done|].
  rewrite allocate_cons. simpl. by apply IH, ensure_bind_bijective.
Qed.

Lemma allocate_keeps (requests : list (Path * string)) (m : BindMap)
    (k : Path) (v : string) :
  dict_get m k = Some v → dict_get (allocate resolve m requests).2 k = Some v.
Proof.
  revert m. induction requests as [|[p pref] rest IH]; intros m Hm; [done|].
  rewrite allocate_cons. simpl. by apply IH, ensure_bind_keeps.
Qed.

Lemma allocate_get (requests : list (Path * string)) (m : BindMap)
    (i : nat) (p : Path) (pref d : string) :
  requests !! i = Some (p, pref) →
  (allocate resolve m requests).1 !! i = Some d →
  dict_get (allocate resolve m requests).2 (resolve p) = Some d.
Proof.
  revert m i. induction requests as [|[p0 pref0] rest IH]; intros m i; [done|].
  rewrite allocate_cons. destruct i as [|i]; simpl.
  - intros [= -> ->] [= <-]. apply allocate_keeps, ensure_bind_get.
  - apply IH.
Qed.

Lemma allocate_first (requests : list (Path * string)) (m : BindMap)
    (i : nat) (p : Path) (pref d : string) :
  requests !! i = Some (p, pref) →
  (allocate resolve m requests).1 !! i = Some d →
  resolve p ∉ m.*1 →
  (∀ j q pref', j < i → requests !! j = Some (q, pref') → resolve q ≠ resolve p) →
  disambiguates pref (m.*2 ++ take i (allocate resolve m requests).1) d.
Proof.
  revert m i. induction requests as [|[p0 pref0] rest IH]; intros m i; [done|].
  rewrite allocate_cons. destruct i as [|i]; cbn [fst lookup list_lookup take].
  - intros [= -> ->] [= <-] Hfresh _. rewrite (right_id_L [] (++)).
    destruct (ensure_bind_cases m p pref) as [[Hget _]|(_ & _ & Hdis & _)]; [|done].
    destruct Hfresh. apply dict_get_Some_elem in Hget.
    apply list_elem_of_fmap. by eexists (_, _).
  - intros Hi Hd Hfresh Hearlier.
    eapply disambiguates_ext; [|eapply (IH _ i); [done..| |]].
    + intros v. rewrite !elem_of_app, elem_of_cons.
      destruct (ensure_bind_cases m p0 pref0)
        as [[Hget ->]|(_ & _ & _ & ->)].
      * split; [tauto|]. intros [?|[->|?]]; [tauto| |tauto]. left.
        apply dict_get_Some_elem in Hget. apply list_elem_of_fmap.
        by eexists (_, _).
      * rewrite fmap_app, elem_of_app. cbn [fmap list_fmap snd].
        rewrite list_elem_of_singleton. tauto.
    + rewrite ensure_bind_keys. intros [?|Heq]; [done|].
      by apply (Hearlier 0 p0 pref0); [lia| |].
    + intros j q pref' Hj. apply (Hearlier (S j)). lia.
Qed.
End AllocatorProperties.

Lemma entries_of_absent (m : BindMap) (k : Path) :
  k ∉ m.*1 → entries_of m k = [].
Proof.
  unfold entries_of. induction m as [|[k' v'] m IH]; [done|].
  rewrite fmap_cons, not_elem_of_cons. intros [Hne Hk].
  rewrite filter_cons_False by (intros ?; by apply Hne). by apply IH.
Qed.

Lemma entries_of_unique (m : BindMap) (k : Path) (v : string) :
  NoDup m.*1 → dict_get m k = Some v → entries_of m k = [(k, v)].
Proof.
  induction m as [|[k' v'] m IH]; [done|].
  rewrite fmap_cons. intros [Hk Hnd]%NoDup_cons. unfold entries_of in *.
  cbn [dict_get]. case_decide as Heq.
  - intros [= ->]. subst k'. rewrite filter_cons_True by done. f_equal.
    by apply entries_of_absent.
  - intros Hget. rewrite filter_cons_False by done. by apply IH.
Qed.

(** C1.  For every finite sequence of (host path, preferred mount name)
    requests served by one allocator, starting from the empty bind map:
    two requests get the same mount name exactly when their host paths
    resolve to the same path, so distinct resolved paths get distinct
    mounts and a path requested again gets the mount it got the first
    time; the first request for a path gets the first of its preferred
    name and that name with the suffixes [_2], [_3], ... that no earlier
    request has got; and in the resulting bind map no host path and no
    mount name occurs twice, each request's mount being the one the map
    records for its path. *)
Theorem ensure_bind_injective (resolve : Path → Path)
    (requests : list (Path * string)) :
  let dests := (allocate resolve [] requests).1 in
  let bind_map := (allocate resolve [] requests).2 in
  length dests = length requests ∧
  bijective bind_map ∧
  ∀ (i j : nat) (p q : Path) (pref_p pref_q d e : string),
    requests !! i = Some (p, pref_p) → requests !! j = Some (q, pref_q) →
    dests !! i = Some d → dests !! j = Some e →
    (resolve p = resolve q ↔ d = e) ∧
    dict_get bind_map (resolve p) = Some d ∧
    ((∀ k r pref_r, k < i → requests !! k = Some (r, pref_r) →
        resolve r ≠ resolve p) →
     disambiguates pref_p (take i dests) d).
Proof.
  intros dests bind_map.
  assert (bijective bind_map) as Hbij.
  { apply allocate_bijective. split; apply NoDup_nil_2. }
  split; [apply allocate_length|]. split; [done|].
  intros i j p q pref_p pref_q d e Hi Hj Hd He.
  pose proof (allocate_get resolve _ _ _ _ _ _ Hi Hd) as Hgd.
  pose proof (allocate_get resolve _ _ _ _ _ _ Hj He) as Hge.
  fold bind_map in Hgd, Hge. split; [split|split; [done|]].
  - intros Heq. rewrite Heq in Hgd. congruence.
  - intros <-. destruct Hbij as [_ Hv].
    apply (values_key_unique bind_map _ _ d Hv); by apply dict_get_Some_elem.
  - intros Hfirst.
    apply (allocate_first resolve requests [] i p pref_p d Hi Hd);
      [apply not_elem_of_nil|done].
Qed.

Lemma ensure_bind_injective_witness :
  let resolve := lexical_resolve ["/"; "work"]%string in
  let requests :=
    [(["out"], "/data"); (["run"], "/data"); (["out"; ".."; "out"], "/scratch")]%string in
  (allocate resolve [] requests).1 = ["/data"; "/data_2"; "/data"]%string ∧
  (resolve ["out"%string] = resolve ["run"%string] ↔ "/data"%string = "/data_2"%string) ∧
  disambiguates "/data" ["/data"%string] "/data_2".
Proof.
  intros resolve requests. split; [by vm_compute|].
  destruct (ensure_bind_injective resolve requests) as (_ & _ & Hall).
  destruct (Hall 0 1 ["out"] ["run"] "/data" "/data" "/data" "/data_2")%string
    as (Hiff & _ & _); [by vm_compute..|].
  split; [exact Hiff|].
  destruct (Hall 1 1 ["run"] ["run"] "/data" "/data" "/data_2" "/data_2")%string
    as (_ & _ & Hdis); [by vm_compute..|].
  apply Hdis. intros k r pref_r Hk Hr.
  destruct k as [|k]; [|lia]. vm_compute in Hr. injection Hr as <- <-.
  by vm_compute.
Defined.

(** C5.  When two requests of one command build name host paths that
    resolve to the same canonical path, however the two are spelled, both
    get the same mount name and the bind map of the build holds exactly one
    entry for that location. *)
Theorem ensure_bind_same_location (resolve : Path → Path)
    (requests : list (Path * string)) (i j : nat) (p q : Path)
    (pref_p pref_q d e : string) :
  let dests := (allocate resolve [] requests).1 in
  let bind_map := (allocate resolve [] requests).2 in
  requests !! i = Some (p, pref_p) → requests !! j = Some (q, pref_q) →
  dests !! i = Some d → dests !! j = Some e →
  resolve p = resolve q →
  d = e ∧ entries_of bind_map (resolve p) = [(resolve p, d)].
Proof.
  intros dests bind_map Hi Hj Hd He Heq.
  pose proof (allocate_get resolve _ _ _ _ _ _ Hi Hd) as Hgd.
  pose proof (allocate_get resolve _ _ _ _ _ _ Hj He) as Hge.
  fold bind_map in Hgd, Hge. rewrite <- Heq in Hge. split; [congruence|].
  apply entries_of_unique; [|done].
  apply (allocate_bijective resolve requests []). split; apply NoDup_nil_2.
Qed.

Lemma ensure_bind_same_location_witness :
  let resolve := lexical_resolve ["/"; "work"]%string in
  let requests := [(["out"], "/input"); (["out"; ".."; "out"], "/output")]%string in
  (allocate resolve [] requests).1 = ["/input"; "/input"]%string ∧
  entries_of (allocate resolve [] requests).2 ["/"; "work"; "out"]%string
    = [(["/"; "work"; "out"], "/input")]%string.
Proof.
  intros resolve requests. split; [by vm_compute|].
  apply (ensure_bind_same_location resolve requests 0 1
           ["out"] ["out"; ".."; "out"] "/input" "/output" "/input" "/input")%string;
    by vm_compute.
Defined.

(** ** Strings *)

Lemma prefix_spec (n s : string) :
  String.prefix n s = true ↔ ∃ b, s = n +:+ b.
Proof.
  revert s. induction n as [|a n IH]; intros s.
  - destruct s; simpl; (split; [intros _; by eexists|done]).
  - destruct s as [|a' s]; simpl.
    + split; [done|]. by intros [b ?].
    + destruct (ascii_dec a a') as [->|Hne].
      * rewrite IH. split; intros [b Hb]; exists b; [by rewrite Hb|].
        by injection Hb.
      * split; [done|]. intros [b Hb]. by injection Hb.
Qed.

(** [contains] decides whether the needle occurs as a substring. *)
Lemma contains_spec (n s : string) :
  contains n s = true ↔ ∃ a b, s = a +:+ n +:+ b.
Proof.
  induction s as [|c s IH]; cbn [contains].
  - rewrite orb_false_r, prefix_spec. split.
    + intros [b Hb]. by exists EmptyString, b.
    + intros (a & b & Hab). destruct a; [by exists b|done].
  - rewrite orb_true_iff, IH. destruct (String.prefix n (String c s)) eqn:Hp.
    + apply prefix_spec in Hp as [b Hb]. split; [|by left].
      intros _. by exists EmptyString, b.
    + split.
      * intros [?|(a & b & ->)]; [done|]. by exists (String c a), b.
      * intros (a & b & Hab). right. destruct a as [|c' a].
        -- assert (String.prefix n (String c s) = true); [|congruence].
           apply prefix_spec. by exists b.
        -- injection Hab as -> ->. by exists a, b.
Qed.

(** ** The loop over the seeds *)

Lemma for_each_cons {A} (x : A) (l : list A) (body : A → M unit) (fs : FS) :
  for_each (x :: l) body fs =
    match body x fs with
    | (Ok _, fs1, t1) =>
        let '(r, fs2, t2) := for_each l body fs1 in (r, fs2, t1 ++ t2)
    | (Return b, fs1, t1) => (Return b, fs1, t1)
    | (Raise e, fs1, t1) => (Raise e, fs1, t1)
    end.
Proof. reflexivity. Qed.

(** ** One seed of Boltz *)

Ltac exec := cbv beta iota zeta; cbn [app].

(** Finds an element in an explicit list. *)
Ltac elem_found :=
  repeat first [apply list_elem_of_here | apply list_elem_of_further].

(** Splits a membership in an explicit list into its cases. *)
Ltac elem_cases H :=
  repeat (apply elem_of_cons in H as [H|H]);
  try (by apply elem_of_nil in H); simplify_eq.


Lemma decode_inr (s text : string) :
  decode s = inr text → text = s ∧ utf8_valid s = true.
Proof. unfold decode. destruct (utf8_valid s); [|done]. by intros [= ->]. Qed.

Ltac warning_leaf :=
  intros [= <- <- <-] ???? Hin; elem_cases Hin; intros; congruence.

Section BoltzSeed.
Context (E : Env).
Context (input_json output_dir working_dir : Path) (test : bool).
Context (number_of_models num_recycles : Z) (sif_path : option Path).

(** An iteration whose process exits with code 0 and the warning in the
    output it printed returns [False]. *)
Lemma boltz_seed_out_of_memory (seed : Z) (fs fs' : FS) (r : result unit)
    (t : list event) :
  boltz_seed E input_json output_dir working_dir test
    number_of_models num_recycles sif_path seed fs = (r, fs', t) →
  ∀ s out e f, Exit s 0 (Some out) e f ∈ t →
    contains OOM out = true → r = Return false.
Proof.
  unfold boltz_seed.
  cbv [update lift mbind M_bind mret M_ret emit get_fs put_fs return_ raise].
  destruct (write_yaml E fs _) as [e0|fs_y] eqn:Hy; exec.
  { warning_leaf. }
  destruct (if negb test then _ else _) as [e0|cmd] eqn:Hcmd; exec.
  { warning_leaf. }
  destruct (popen E fs_y cmd) as [e0|code out err fs1] eqn:Hp; exec.
  { warning_leaf. }
  destruct (capture (readlines out) EmptyString) as [e0|stdout] eqn:Hcap; exec.
  { warning_leaf. }
  case_bool_decide as Hcode; exec.
  - destruct (decode err) as [e0|text] eqn:Hdec; exec.
    { warning_leaf. }
    destruct (open_w E fs1 _) as [e0|fs2] eqn:Hopen; exec.
    { warning_leaf. }
    destruct (encode E text) as [e0|bytes] eqn:Henc; exec; warning_leaf.
  - subst code.
    destruct (contains OOM stdout) eqn:Hoom; exec; warning_leaf.
Qed.
End BoltzSeed.

(** ** Making directories *)

Lemma fs_lookup_insert_eq (fs : FS) (p : Path) (n : node) :
  <[p := n]> fs !! p = Some n.
Proof.
  unfold lookup, insert, fs_lookup, fs_insert. simpl. by rewrite decide_True.
Qed.

Section MakeDirectories.
Context (E : Env).

Lemma os_mkdir_is_dir (fs fs' : FS) (p : Path) :
  os_mkdir E fs p = inr fs' → fs' !! resolve E p = Some Dir.
Proof.
  unfold os_mkdir. repeat case_match; try done.
  intros [= <-]. apply fs_lookup_insert_eq.
Qed.

Lemma is_dir_lookup (fs : FS) (p : Path) :
  is_dir E fs p = true ↔ fs !! resolve E p = Some Dir.
Proof. unfold is_dir. apply bool_decide_eq_true. Qed.

Lemma parent_shorter (p : Path) : parent p ≠ p → length (parent p) < length p.
Proof.
  unfold parent. destruct (is_absolute p && bool_decide (length p = 1)); [done|].
  destruct p as [|s p] using rev_ind; [done|].
  rewrite removelast_last, length_app. simpl. lia.
Qed.

(** The climb to the parents never runs out of the fuel [mkdir] gives
    it: any fuel from [length p] on gives the same result. *)
Lemma mkdir_parents_fuel (n m : nat) (fs : FS) (p : Path) :
  length p ≤ n → length p ≤ m →
  mkdir_parents E n fs p = mkdir_parents E m fs p.
Proof.
  revert m fs p. induction n as [|n IH]; intros [|m] fs p Hn Hm; [done|..].
  - destruct p; [|simpl in Hn; lia]. simpl.
    destruct (os_mkdir E fs []) as [[]|]; try done.
  - destruct p; [|simpl in Hm; lia]. simpl.
    destruct (os_mkdir E fs []) as [[]|]; try done.
  - simpl. destruct (os_mkdir E fs p) as [[]|]; try done.
    case_decide as Hp; [done|]. apply parent_shorter in Hp.
    by rewrite (IH m fs (parent p)) by lia.
Qed.

(** When [mkdir(parents=True, exist_ok=True)] returns, the directory is
    there. *)
Lemma mkdir_parents_is_dir (fuel : nat) (fs fs' : FS) (p : Path) :
  mkdir_parents E fuel fs p = inr fs' → is_dir E fs' p = true.
Proof.
  rewrite is_dir_lookup.
  destruct fuel as [|fuel]; simpl.
  - destruct (os_mkdir E fs p) as [e|fs1] eqn:Hmk.
    + destruct e; try (case_decide; done);
        (destruct (is_dir E fs p) eqn:Hd; [|done]);
        intros [= <-]; by apply is_dir_lookup.
    + intros [= <-]. by eapply os_mkdir_is_dir.
  - destruct (os_mkdir E fs p) as [e|fs1] eqn:Hmk.
    + destruct e;
        try ((destruct (is_dir E fs p) eqn:Hd; [|done]);
             intros [= <-]; by apply is_dir_lookup).
      case_decide; [done|].
      destruct (mkdir_parents E fuel fs (parent p)) as [e|fs1]; [done|].
      destruct (os_mkdir E fs1 p) as [e|fs2] eqn:Hmk2.
      * destruct e; try done;
          (destruct (is_dir E fs1 p) eqn:Hd; [|done]);
          intros [= <-]; by apply is_dir_lookup.
      * intros [= <-]. by eapply os_mkdir_is_dir.
    + intros [= <-]. by eapply os_mkdir_is_dir.
Qed.
End MakeDirectories.

(** ** One seed of Chai-1 *)

Lemma chai_output_name (seed : Z) : "chai_output_seed-" +:+ pretty seed ≠ "/".
Proof. done. Qed.

(** * Capturing the standard output *)

Lemma readlines_cons (a : ascii) (s : string) :
  readlines (String a s) =
    if bool_decide (a = "010"%char) then String a EmptyString :: readlines s
    else match readlines s with
         | [] => [String a EmptyString]
         | l :: ls => String a l :: ls
         end.
Proof. reflexivity. Qed.

(** The lines of a stream, put together again, are the stream. *)
Lemma readlines_concat (s : string) :
  foldr String.append EmptyString (readlines s) = s.
Proof.
  induction s as [|a s IH]; [done|].
  rewrite readlines_cons. case_bool_decide; simpl; [by rewrite IH|].
  destruct (readlines s) as [|l ls]; simpl in *; by rewrite <- IH.
Qed.

Lemma string_app_empty_r (s : string) : s = s +:+ "".
Proof.
  induction s as [|a s IH]; [done|].
  change (String a s = String a (s +:+ "")). by f_equal.
Qed.

Lemma string_app_assoc (s1 s2 s3 : string) :
  (s1 +:+ s2) +:+ s3 = s1 +:+ s2 +:+ s3.
Proof.
  induction s1 as [|a s1 IH]; [done|].
  change (String a ((s1 +:+ s2) +:+ s3) = String a (s1 +:+ s2 +:+ s3)).
  by f_equal.
Qed.

(** The loop of [run_boltz] that collects the output: it appends the
    lines, and raises at the first one that does not decode. *)
Lemma capture_lines (lines : list string) (stdout : string) :
  capture lines stdout =
    if forallb utf8_valid lines
    then inr (stdout +:+ foldr String.append EmptyString lines)
    else inl UnicodeDecodeError.
Proof.
  revert stdout. induction lines as [|line lines IH]; intros stdout; simpl.
  - by rewrite <- string_app_empty_r.
  - unfold decode. destruct (utf8_valid line); simpl; [|done].
    by rewrite IH, string_app_assoc.
Qed.

(** Well-formed text followed by more bytes is well-formed when the
    bytes that follow are. *)
Lemma utf8_valid_app (s1 s2 : string) :
  utf8_valid s1 = true → utf8_valid (s1 +:+ s2) = utf8_valid s2.
Proof.
  remember (String.length s1) as n eqn:Hn. revert s1 Hn.
  induction (lt_wf n) as [n _ IH]. intros s1 -> Hv.
  destruct s1 as [|a s1]; [done|]. simpl in Hv |- *.
  destruct (in_range 0 127 a).
  { eapply IH; [|done..]. simpl. lia. }
  destruct s1 as [|b s1]; [done|]. simpl in Hv |- *.
  destruct (in_range 194 223 a).
  { apply andb_true_iff in Hv as [-> Hv]. simpl.
    eapply IH; [|done..]. simpl. lia. }
  destruct s1 as [|c s1]; [done|]. simpl in Hv |- *.
  destruct (lead3 a b).
  { apply andb_true_iff in Hv as [-> Hv]. simpl.
    eapply IH; [|done..]. simpl. lia. }
  destruct s1 as [|d s1]; [done|]. simpl in Hv |- *.
  apply andb_true_iff in Hv as [Hv Hv4].
  rewrite Hv. simpl. eapply IH; [|done..]. simpl. lia.
Qed.

Lemma utf8_valid_concat (lines : list string) :
  forallb utf8_valid lines = true →
  utf8_valid (foldr String.append EmptyString lines) = true.
Proof.
  induction lines as [|l lines IH]; simpl; [done|].
  intros [Hl Hls]%andb_true_iff. rewrite utf8_valid_app by done. auto.
Qed.

(** A line feed is a character of its own: it is no part of a longer
    sequence. *)
Lemma ascii_line_feed (a : ascii) :
  in_range 0 127 a = false → a ≠ "010"%char.
Proof. by intros Ha ->. Qed.

Lemma continuation_line_feed (a : ascii) :
  continuation a = true → a ≠ "010"%char.
Proof. by intros Ha ->. Qed.

Lemma lead3_continuation (a b : ascii) : lead3 a b = true → continuation b = true.
Proof.
  unfold lead3, continuation, in_range.
  intros H. repeat (apply orb_true_iff in H as [H|H]);
    apply andb_true_iff in H as [_ H]; apply andb_true_iff in H as [H1 H2];
    apply andb_true_iff; split; apply N.leb_le;
    apply N.leb_le in H1, H2; lia.
Qed.

Lemma lead4_continuation (a b : ascii) : lead4 a b = true → continuation b = true.
Proof.
  unfold lead4, continuation, in_range.
  intros H. repeat (apply orb_true_iff in H as [H|H]);
    apply andb_true_iff in H as [_ H]; apply andb_true_iff in H as [H1 H2];
    apply andb_true_iff; split; apply N.leb_le;
    apply N.leb_le in H1, H2; lia.
Qed.

(** The lines of a stream that begins with a byte that is no line feed. *)
Lemma readlines_other (a : ascii) (s : string) :
  a ≠ "010"%char →
  ∃ l ls, readlines (String a s) = String a l :: ls ∧
    (readlines s = [] ∧ l = EmptyString ∧ ls = [] ∨ readlines s = l :: ls).
Proof.
  intros Ha. rewrite readlines_cons, bool_decide_false by done.
  destruct (readlines s) as [|l ls]; eauto 10.
Qed.

(** Well-formed text consists of well-formed lines. *)
Lemma utf8_valid_readlines (s : string) :
  utf8_valid s = true → forallb utf8_valid (readlines s) = true.
Proof.
  remember (String.length s) as n eqn:Hn. revert s Hn.
  induction (lt_wf n) as [n _ IH]. intros s -> Hv.
  destruct s as [|a s]; [done|].
  assert (∀ s', String.length s' < String.length (String a s) →
            utf8_valid s' = true → forallb utf8_valid (readlines s') = true)
    as IH' by (intros; by eapply IH).
  clear IH. simpl in Hv.
  destruct (in_range 0 127 a) eqn:Ha.
  { pose proof (IH' s ltac:(simpl; lia) Hv) as Hs.
    rewrite readlines_cons. case_bool_decide.
    - simpl. by rewrite Ha.
    - destruct (readlines s) as [|l ls]; simpl in *; by rewrite Ha. }
  destruct s as [|b s]; [done|].
  destruct (in_range 194 223 a) eqn:Ha2.
  { apply andb_true_iff in Hv as [Hb Hv].
    pose proof (IH' s ltac:(simpl; lia) Hv) as Hs.
    rewrite readlines_cons, bool_decide_false by by apply ascii_line_feed.
    destruct (readlines_other b s (continuation_line_feed _ Hb))
      as (l1 & ls1 & -> & [(Hnil & -> & ->)|Hcons]); simpl.
    + by rewrite Ha, Ha2, Hb.
    + rewrite Hcons in Hs. simpl in Hs. by rewrite Ha, Ha2, Hb. }
  destruct s as [|c s]; [done|].
  destruct (lead3 a b) eqn:Ha3.
  { apply andb_true_iff in Hv as [Hc Hv].
    pose proof (IH' s ltac:(simpl; lia) Hv) as Hs.
    pose proof (lead3_continuation _ _ Ha3) as Hb.
    rewrite readlines_cons, bool_decide_false by by apply ascii_line_feed.
    rewrite readlines_cons, bool_decide_false by by apply continuation_line_feed.
    destruct (readlines_other c s (continuation_line_feed _ Hc))
      as (l1 & ls1 & -> & [(Hnil & -> & ->)|Hcons]); simpl.
    + by rewrite Ha, Ha2, Ha3, Hc.
    + rewrite Hcons in Hs. simpl in Hs. by rewrite Ha, Ha2, Ha3, Hc. }
  destruct s as [|d s]; [done|].
  apply andb_true_iff in Hv as [Hv Hs].
  apply andb_true_iff in Hv as [Hv Hd].
  apply andb_true_iff in Hv as [Ha4 Hc].
  pose proof (IH' s ltac:(simpl; lia) Hs) as Hls.
  pose proof (lead4_continuation _ _ Ha4) as Hb.
  rewrite readlines_cons, bool_decide_false by by apply ascii_line_feed.
  rewrite readlines_cons, bool_decide_false by by apply continuation_line_feed.
  rewrite readlines_cons, bool_decide_false by by apply continuation_line_feed.
  destruct (readlines_other d s (continuation_line_feed _ Hd))
    as (l1 & ls1 & -> & [(Hnil & -> & ->)|Hcons]); simpl.
  + by rewrite Ha, Ha2, Ha3, Ha4, Hc, Hd.
  + rewrite Hcons in Hls. simpl in Hls. by rewrite Ha, Ha2, Ha3, Ha4, Hc, Hd.
Qed.

Lemma readlines_valid (s : string) :
  forallb utf8_valid (readlines s) = utf8_valid s.
Proof.
  destruct (utf8_valid s) eqn:Hs; [by apply utf8_valid_readlines|].
  destruct (forallb utf8_valid (readlines s)) eqn:Hl; [|done].
  apply utf8_valid_concat in Hl. rewrite readlines_concat in Hl. congruence.
Qed.

Lemma capture_readlines (s : string) :
  capture (readlines s) EmptyString = decode s.
Proof.
  rewrite capture_lines, readlines_valid, readlines_concat. reflexivity.
Qed.

(** * Further properties of the run drivers *)

(** Settles [orderly] on an explicit trace. *)
Ltac after_spawn :=
  intros t1 ???? Heq;
  repeat (destruct t1 as [|? t1]; simplify_eq/=);
  repeat constructor; simpl; tauto.

Ltac orderly_leaf :=
  intros [= <- <- <-]; unfold orderly;
  cbn [steps step_of schedule built spawned exited writes omap list_omap];
  split; [try done; try (by intros [=])|];
  split; [done|];
  split; [by eexists|];
  split; [by eexists|];
  split; [by eexists|];
  split; [by eexists|];
  split; [try (by left); try (right; split; [done|]; by do 2 eexists)|];
  split; [|after_spawn];
  intros ????? Hin; elem_cases Hin;
  (split;
   [intros Hpass; try done;
    try (destruct Hpass; by left);
    try (destruct Hpass; right; by eexists)
   |intros ? [?|(? & ? & ?)]; simplify_eq; congruence]).

Section BoltzSeedTrace.
Context (E : Env).
Context (input_json output_dir working_dir : Path) (test : bool).
Context (number_of_models num_recycles : Z) (sif_path : option Path).

Lemma boltz_seed_orderly (seed : Z) (fs fs' : FS) (r : result unit)
    (t : list event) :
  boltz_seed E input_json output_dir working_dir test
    number_of_models num_recycles sif_path seed fs = (r, fs', t) →
  orderly seed r t.
Proof.
  unfold boltz_seed.
  cbv [update lift mbind M_bind mret M_ret emit get_fs put_fs return_ raise].
  destruct (write_yaml E fs _) as [e0|fs_y] eqn:Hy; exec.
  { orderly_leaf. }
  destruct (if negb test then _ else _) as [e0|cmd] eqn:Hcmd; exec.
  { orderly_leaf. }
  destruct (popen E fs_y cmd) as [e0|code out err fs1] eqn:Hp; exec.
  { orderly_leaf. }
  destruct (capture (readlines out) EmptyString) as [e0|stdout] eqn:Hcap; exec.
  { orderly_leaf. }
  case_bool_decide as Hcode; exec.
  - destruct (decode err) as [e0|text] eqn:Hdec; exec.
    { orderly_leaf. }
    destruct (open_w E fs1 _) as [e0|fs2] eqn:Hopen; exec.
    { orderly_leaf. }
    destruct (encode E text) as [e0|bytes] eqn:Henc; exec.
    { orderly_leaf. }
    orderly_leaf.
  - subst code.
    destruct (contains OOM stdout) eqn:Hoom; exec.
    + orderly_leaf.
    + orderly_leaf.
Qed.
End BoltzSeedTrace.

(** Settles the facts about the calls of one iteration on an explicit
    trace. *)
Ltac same_process He :=
  match goal with
  | Hp : popen ?E ?f ?c = _ |- _ =>
      lazymatch Hp with
      | He => fail
      | _ => rewrite Hp in He; simplify_eq
      end
  end.

Ltac spawn_facts :=
  split; [done|]; split; [done|]; split; [done|];
  split; [intros ? He; same_process He; done|];
  split; [intros ???? He Hv; same_process He; try congruence; done
         |intros ???? He Hv; same_process He; try congruence; elem_found].

Ltac exit_facts := do 3 eexists; split; [elem_found|done].

Ltac write_facts := split; [done|]; do 3 eexists; split; [elem_found|done].

Ltac calls_leaf :=
  intros [= <- <- <-]; cbn [spawned omap list_omap];
  split; [try done; try (intros _; eexists; split; [done|]; by eauto)|];
  split; [intros ??? Hin; elem_cases Hin; spawn_facts|];
  split; [intros ????? Hin; elem_cases Hin; exit_facts|];
  intros ?? Hin; elem_cases Hin; write_facts.

Section BoltzSeedCalls.
Context (E : Env).
Context (input_json output_dir working_dir : Path) (test : bool).
Context (number_of_models num_recycles : Z) (sif_path : option Path).

Lemma boltz_seed_calls (seed : Z) (fs fs' : FS) (r : result unit)
    (t : list event) :
  boltz_seed E input_json output_dir working_dir test
    number_of_models num_recycles sif_path seed fs = (r, fs', t) →
  let input := out_file working_dir input_json seed in
  let build :=
    boltz_cmd E input_json output_dir working_dir test number_of_models
      num_recycles sif_path seed in
  (spawned t = [] →
   ∃ e, r = Raise e ∧ (write_yaml E fs input = inl e ∨ build = inl e)) ∧
  (∀ s cmd f, Spawn s cmd f ∈ t →
     s = seed ∧ build = inr cmd ∧ write_yaml E fs input = inr f ∧
     (∀ e, popen E f cmd = SpawnFailed e →
        r = Raise e ∧ fs' = f ∧ last t = Some (Spawn s cmd f)) ∧
     (∀ c raw err f1, popen E f cmd = Exited c raw err f1 →
        utf8_valid raw = false →
        r = Raise UnicodeDecodeError ∧ fs' = f1 ∧
        last t = Some (Spawn s cmd f)) ∧
     (∀ c raw err f1, popen E f cmd = Exited c raw err f1 →
        utf8_valid raw = true → Exit s c (Some raw) err f1 ∈ t)) ∧
  (∀ s c o err f, Exit s c o err f ∈ t →
     ∃ cmd f0 raw,
       Spawn seed cmd f0 ∈ t ∧ s = seed ∧
       popen E f0 cmd = Exited c raw err f ∧
       o = Some raw ∧ utf8_valid raw = true) ∧
  (∀ p text, Write p text ∈ t →
     p = joinpath output_dir "boltz_error.log" ∧
     ∃ c o f, Exit seed c o text f ∈ t ∧ c ≠ 0%Z ∧ r = Return false).
Proof.
  unfold boltz_seed, boltz_cmd, out_file.
  cbv [update lift mbind M_bind mret M_ret emit get_fs put_fs return_ raise].
  destruct (write_yaml E fs _) as [e0|fs_y] eqn:Hy; exec.
  { calls_leaf. }
  destruct (if negb test then _ else _) as [e0|cmd] eqn:Hcmd; exec.
  { calls_leaf. }
  destruct (popen E fs_y cmd) as [e0|code out err fs1] eqn:Hp; exec.
  { calls_leaf. }
  destruct (capture (readlines out) EmptyString) as [e0|stdout] eqn:Hcap; exec;
    rewrite capture_readlines in Hcap.
  { unfold decode in Hcap. destruct (utf8_valid out) eqn:Hvalid; [done|].
    injection Hcap as <-. calls_leaf. }
  apply decode_inr in Hcap as [-> Hvalid].
  case_bool_decide as Hcode; exec.
  - destruct (decode err) as [e0|text] eqn:Hdec; exec.
    { calls_leaf. }
    apply decode_inr in Hdec as [-> Hverr].
    destruct (open_w E fs1 _) as [e0|fs2] eqn:Hopen; exec.
    { calls_leaf. }
    destruct (encode E err) as [e0|bytes] eqn:Henc; exec.
    { calls_leaf. }
    calls_leaf.
  - subst code.
    destruct (contains OOM out) eqn:Hoom; exec.
    + calls_leaf.
    + calls_leaf.
Qed.
End BoltzSeedCalls.

Ltac chai_spawn_facts :=
  split; [done|]; split; [done|]; split; [done|];
  split; [intros ? He; same_process He; done
         |intros ???? He; same_process He; elem_found].

Ltac chai_calls_leaf :=
  intros [= <- <- <-]; cbn [spawned omap list_omap];
  split; [try done; try (intros _; eexists; split; [done|]; by eauto)|];
  split; [intros ??? Hin; elem_cases Hin; chai_spawn_facts|];
  split; [intros ????? Hin; elem_cases Hin; exit_facts|];
  intros ?? Hin; elem_cases Hin; exit_facts.

Section ChaiSeedTrace.
Context (E : Env).
Context (out_fasta msa_dir : Path) (out_constraints : option Path).
Context (output_dir : Path) (test : bool) (number_of_models num_recycles : Z).
Context (use_templates_server : bool) (template_hits_path sif_path : option Path).

(** The lines before the command is built: the output directory of the
    seed is made when an image is given. *)
Lemma chai_seed_directory (seed : Z) (fs : FS) :
  let dir := chai_output_dir output_dir seed in
  let pre :=
    ((if bool_decide (is_Some sif_path)
      then update (λ fs, mkdir E fs dir) else mret tt) : M unit) fs in
  (∃ e, pre = (Raise e, fs, []) ∧ is_Some sif_path ∧ mkdir E fs dir = inl e) ∨
  (∃ f, pre = (Ok tt, f, []) ∧
     (is_Some sif_path → mkdir E fs dir = inr f) ∧
     (sif_path = None → f = fs)).
Proof.
  intros dir pre. subst pre.
  cbv [update lift mbind M_bind mret M_ret emit get_fs put_fs return_ raise].
  case_bool_decide as Hsif; exec.
  - destruct (mkdir E fs dir) as [e0|fs0] eqn:Hmk; exec.
    + left. by exists e0.
    + right. exists fs0. split; [done|]. split; [done|].
      intros ->. by destruct Hsif.
  - right. exists fs. split; [done|]. split; [done|]. done.
Qed.

Lemma chai_seed_orderly (seed : Z) (fs fs' : FS) (r : result unit)
    (t : list event) :
  chai_seed E out_fasta msa_dir out_constraints output_dir test
    number_of_models num_recycles use_templates_server template_hits_path
    sif_path seed fs = (r, fs', t) →
  orderly seed r t.
Proof.
  unfold chai_seed.
  destruct (chai_seed_directory seed fs)
    as [(e0 & Hpre & _)|(fs_m & Hpre & _)]; cbv zeta in Hpre;
    unfold chai_output_dir in Hpre;
    unfold mbind at 1, M_bind at 1; rewrite Hpre; clear Hpre.
  { orderly_leaf. }
  cbv [update lift mbind M_bind mret M_ret emit get_fs put_fs return_ raise].
  exec.
  destruct (if negb test then _ else _) as [e0|cmd] eqn:Hcmd; exec.
  { orderly_leaf. }
  destruct (popen E fs_m cmd) as [e0|code out err fs1] eqn:Hp; exec.
  { orderly_leaf. }
  case_bool_decide as Hcode; exec.
  - destruct (open_w E fs1 _) as [e0|fs2] eqn:Hopen; exec.
    { orderly_leaf. }
    destruct (decode err) as [e0|text] eqn:Hdec; exec.
    { orderly_leaf. }
    destruct (encode E text) as [e0|bytes] eqn:Henc; exec.
    { orderly_leaf. }
    orderly_leaf.
  - subst code. orderly_leaf.
Qed.

Lemma chai_seed_calls (seed : Z) (fs fs' : FS) (r : result unit)
    (t : list event) :
  chai_seed E out_fasta msa_dir out_constraints output_dir test
    number_of_models num_recycles use_templates_server template_hits_path
    sif_path seed fs = (r, fs', t) →
  let dir := chai_output_dir output_dir seed in
  let build f :=
    chai_cmd E f out_fasta msa_dir out_constraints output_dir test
      number_of_models num_recycles use_templates_server
      template_hits_path sif_path seed in
  (spawned t = [] →
   ∃ e, r = Raise e ∧
     (is_Some sif_path ∧ mkdir E fs dir = inl e ∨ ∃ f, build f = inl e)) ∧
  (∀ s cmd f, Spawn s cmd f ∈ t →
     s = seed ∧ build f = inr cmd ∧
     ((is_Some sif_path → mkdir E fs dir = inr f) ∧
      (sif_path = None → f = fs)) ∧
     (∀ e, popen E f cmd = SpawnFailed e →
        r = Raise e ∧ fs' = f ∧ last t = Some (Spawn s cmd f)) ∧
     (∀ c raw err f1, popen E f cmd = Exited c raw err f1 →
        Exit s c None err f1 ∈ t)) ∧
  (∀ s c o err f, Exit s c o err f ∈ t →
     ∃ cmd f0 raw,
       Spawn seed cmd f0 ∈ t ∧ s = seed ∧
       popen E f0 cmd = Exited c raw err f ∧ o = None) ∧
  (∀ p text, Write p text ∈ t →
     ∃ c o f, Exit seed c o text f ∈ t ∧ c ≠ 0%Z ∧ r = Return false ∧
       p = if path_exists E f dir then joinpath dir "chai_error.log"
           else joinpath output_dir "chai_error.log").
Proof.
  unfold chai_seed, chai_cmd.
  destruct (chai_seed_directory seed fs)
    as [(e0 & Hpre & Hsif & Hmk)|(fs_m & Hpre & Hmk)]; cbv zeta in Hpre;
    unfold chai_output_dir in *;
    unfold mbind at 1, M_bind at 1; rewrite Hpre; clear Hpre.
  { chai_calls_leaf. }
  rewrite (parent_joinpath _ _ (chai_output_name seed)).
  cbv [update lift mbind M_bind mret M_ret emit get_fs put_fs return_ raise].
  exec.
  destruct (if negb test then _ else _) as [e0|cmd] eqn:Hcmd; exec.
  { chai_calls_leaf. }
  destruct (popen E fs_m cmd) as [e0|code out err fs1] eqn:Hp; exec.
  { chai_calls_leaf. }
  case_bool_decide as Hcode; exec.
  - destruct (open_w E fs1 _) as [e0|fs2] eqn:Hopen; exec.
    { chai_calls_leaf. }
    destruct (decode err) as [e0|text] eqn:Hdec; exec.
    { chai_calls_leaf. }
    apply decode_inr in Hdec as [-> Hverr].
    destruct (encode E err) as [e0|bytes] eqn:Henc; exec.
    { chai_calls_leaf. }
    chai_calls_leaf.
  - subst code. chai_calls_leaf.
Qed.
End ChaiSeedTrace.

(** ** The error log of one seed *)


Section SeedLog.
Context (E : Env).


End SeedLog.

(** ** The iterations of a run *)

(** A loop is a sequence of iterations that go on, followed, unless all
    of them did, by one iteration that does not go on and whose outcome
    is the loop's. *)
Lemma for_each_steps {A} (body : A → M unit) (l : list A) (fs fs' : FS)
    (r : result unit) (t : list event) :
  for_each l body fs = (r, fs', t) →
  ∃ (before : list A) (ts : list (list event)) (t0 : list event),
    Forall2 (λ x tx, ∃ fs0 fs1, body x fs0 = (Ok tt, fs1, tx)) before ts ∧
    t = concat ts ++ t0 ∧
    (r = Ok tt ∧ l = before ∧ t0 = [] ∨
     r ≠ Ok tt ∧ ∃ x rest fs0,
       l = before ++ x :: rest ∧ body x fs0 = (r, fs', t0)).
Proof.
  revert fs t. induction l as [|x l IH]; intros fs t.
  - intros [= <- <- <-]. exists [], [], []. split; [constructor|].
    split; [done|]. by left.
  - rewrite for_each_cons.
    destruct (body x fs) as [[[[]|b|e] fs1] t1] eqn:Hx.
    + destruct (for_each l body fs1) as [[r2 fs2] t2] eqn:Hl.
      intros [= <- <- <-].
      destruct (IH _ _ Hl) as (before & ts & t0 & Hts & -> & Hend).
      exists (x :: before), (t1 :: ts), t0.
      split; [constructor; [by eexists _, _|done]|].
      split; [cbn [concat]; by rewrite <- (assoc_L (++))|].
      destruct Hend as [(-> & -> & ->)|(? & y & rest & fs0 & -> & Hy)];
        [by left|right; split; [done|]; by exists y, rest, fs0].
    + intros [= <- <- <-]. exists [], [], t1. split; [constructor|].
      split; [done|]. right. split; [done|]. by exists x, l, fs.
    + intros [= <- <- <-]. exists [], [], t1. split; [constructor|].
      split; [done|]. right. split; [done|]. by exists x, l, fs.
Qed.

(** A run is such a loop, and returns [True] after it. *)
Lemma run_steps {A} (body : A → M unit) (l : list A) (fs fs' : FS)
    (r : result unit) (t : list event) :
  (for_each l body;; return_ true) fs = (r, fs', t) →
  ∃ (before : list A) (ts : list (list event)) (t0 : list event),
    Forall2 (λ x tx, ∃ fs0 fs1, body x fs0 = (Ok tt, fs1, tx)) before ts ∧
    t = concat ts ++ t0 ∧
    (r = Return true ∧ l = before ∧ t0 = [] ∨
     r ≠ Ok tt ∧ ∃ x rest fs0,
       l = before ++ x :: rest ∧ body x fs0 = (r, fs', t0)).
Proof.
  unfold mbind, M_bind.
  destruct (for_each l body fs) as [[r1 fs1] t1] eqn:Hl.
  apply for_each_steps in Hl as (before & ts & t0 & Hts & -> & Hend).
  destruct Hend as [(-> & -> & ->)|(Hr & x & rest & fs0 & -> & Hx)].
  - cbn [return_]. intros [= <- <- <-]. exists before, ts, [].
    split; [done|]. split; [by rewrite !(right_id_L [] (++))|]. by left.
  - destruct r1 as [[]|b|e]; [done|..]; intros [= <- <- <-];
      exists before, ts, t0; (split; [done|]); (split; [done|]);
      right; (split; [done|]); by exists x, rest, fs0.
Qed.


Lemma schedule_app (l1 l2 : list Z) :
  schedule (l1 ++ l2) = schedule l1 ++ schedule l2.
Proof. induction l1 as [|x l1 IH]; [done|]. cbn. by rewrite IH. Qed.

Section OrderlyRun.
Context (body : Z → M unit).
Hypothesis Hbody : ∀ seed fs fs' r t,
  body seed fs = (r, fs', t) → orderly seed r t.

Lemma iterations_passed (before : list Z) (ts : list (list event)) :
  Forall2 (λ x tx, ∃ fs0 fs1, body x fs0 = (Ok tt, fs1, tx)) before ts →
  steps (concat ts) = schedule before ∧
  spawned (concat ts) = before ∧ writes (concat ts) = [] ∧
  Forall (went_on body) (concat ts).
Proof.
  induction 1 as [|x tx before ts (fs0 & fs1 & Hx) _ IH]; cbn [concat].
  { by repeat split. }
  pose proof (Hbody _ _ _ _ _ Hx) as (Hok & _).
  destruct (Hok eq_refl) as (Hst & _ & Hs & _ & Hw).
  destruct IH as (IHst & IHs & IHw & IHall).
  unfold steps, spawned, writes in *. rewrite !omap_app.
  rewrite Hst, Hs, Hw, IHst, IHs, IHw.
  repeat split; try done.
  apply Forall_app. split; [|done].
  apply Forall_forall. intros ev Hev. by exists x, fs0, fs1, tx.
Qed.

(** A whole run: it returns [True] after iterations that all went on,
    or its outcome is that of one iteration, the last, after iterations
    that went on. *)
Lemma run_cases (seeds : list Z) (fs fs' : FS) (r : result unit)
    (t : list event) :
  (for_each seeds body;; return_ true) fs = (r, fs', t) →
  (r = Return true ∧ steps t = schedule seeds ∧ spawned t = seeds ∧
   writes t = [] ∧ Forall (went_on body) t) ∨
  (r ≠ Ok tt ∧ r ≠ Return true ∧
   ∃ before x rest fs0 tp t0,
     seeds = before ++ x :: rest ∧ body x fs0 = (r, fs', t0) ∧
     t = tp ++ t0 ∧
     steps tp = schedule before ∧ spawned tp = before ∧ writes tp = [] ∧
     Forall (went_on body) tp).
Proof.
  intros Hrun.
  apply run_steps in Hrun as (before & ts & t0 & Hts & -> & Hend).
  apply iterations_passed in Hts as (Hst & Hs & Hw & Hall).
  destruct Hend as [(-> & -> & ->)|(Hr & x & rest & fs0 & -> & Hx)].
  - left. rewrite (right_id_L [] (++)). by repeat split.
  - right. split; [done|].
    split; [by apply Hbody in Hx as (_ & Htrue & _)|].
    by exists before, x, rest, fs0, (concat ts), t0.
Qed.

(** The seeds are taken in order, and for each of them the command is
    built, then the process spawned, then its exit reached. *)
Lemma run_schedule (seeds : list Z) (fs fs' : FS) (r : result unit)
    (t : list event) :
  (for_each seeds body;; return_ true) fs = (r, fs', t) →
  steps t `prefix_of` schedule seeds ∧
  spawned t `prefix_of` seeds ∧
  (r = Return true → steps t = schedule seeds ∧ spawned t = seeds).
Proof.
  intros Hrun.
  destruct (run_cases _ _ _ _ _ Hrun)
    as [(-> & Hst & Hs & _)
       |(_ & Htrue & before & x & rest & fs0 & tp & t0 &
         -> & Hx & -> & Hst & Hs & _)].
  - rewrite Hst, Hs. by repeat split.
  - apply Hbody in Hx as (_ & _ & [k Hk] & [kb Hkb] & [ks Hks] & _).
    unfold steps, spawned in *. rewrite !omap_app, Hst, Hs.
    split; [|split; [|done]].
    + exists (k ++ schedule rest).
      change (x :: rest) with ([x] ++ rest).
      rewrite !schedule_app, Hk. by rewrite <- !(assoc_L (++)).
    + exists (ks ++ kb ++ rest).
      change (x :: rest) with ([x] ++ rest).
      rewrite Hkb. fold (built t0). rewrite Hks.
      by rewrite <- !(assoc_L (++)).
Qed.


(** Every event of a run is logged by the iteration of one of the
    seeds: one that goes on, or the last one, whose outcome is the
    run's. *)
Lemma run_elem (seeds : list Z) (fs fs' : FS) (r : result unit)
    (t : list event) (ev : event) :
  (for_each seeds body;; return_ true) fs = (r, fs', t) → ev ∈ t →
  ∃ x fs0 r0 fs1 t0,
    x ∈ seeds ∧ body x fs0 = (r0, fs1, t0) ∧ ev ∈ t0 ∧
    (∀ ev', ev' ∈ t0 → ev' ∈ t) ∧
    (r0 = Ok tt ∧ writes t0 = [] ∨
     r0 = r ∧ fs1 = fs' ∧ ∃ tp, t = tp ++ t0 ∧ writes tp = []).
Proof.
  intros Hrun Hev.
  apply run_steps in Hrun as (before & ts & t0 & Hts & -> & Hend).
  pose proof (iterations_passed _ _ Hts) as (_ & _ & Hw & _).
  apply elem_of_app in Hev as [Hev|Hev].
  - assert (∃ x fs0 fs1 tx,
              x ∈ before ∧ body x fs0 = (Ok tt, fs1, tx) ∧ ev ∈ tx ∧
              ∀ ev', ev' ∈ tx → ev' ∈ concat ts)
      as (y & fs2 & fs3 & ty & Hy & Hby & Hty & Hsub).
    { clear Hend Hw. induction Hts as [|x tx before ts (fs0 & fs1 & Hx) _ IH];
        [by apply elem_of_nil in Hev|].
      cbn [concat] in Hev |- *.
      apply elem_of_app in Hev as [Hev|Hev].
      - exists x, fs0, fs1, tx. split; [left|]. split; [done|].
        split; [done|]. intros ev' Hev'. apply elem_of_app. by left.
      - destruct (IH Hev) as (y & fs2 & fs3 & ty & Hy & Hby & Hty & Hsub).
        exists y, fs2, fs3, ty. split; [by right|]. split; [done|].
        split; [done|]. intros ev' Hev'. apply elem_of_app. right. auto. }
    exists y, fs2, (Ok tt), fs3, ty.
    split.
    { destruct Hend as [(-> & -> & ->)|(Hr & x & rest & fs0 & -> & Hx)];
        [done|]. apply elem_of_app. by left. }
    split; [done|]. split; [done|].
    split; [intros ev' Hev'; apply elem_of_app; left; auto|].
    left. split; [done|]. apply Hbody in Hby. by apply Hby.
  - destruct Hend as [(-> & -> & ->)|(Hr & x & rest & fs0 & -> & Hx)];
      [by apply elem_of_nil in Hev|].
    exists x, fs0, r, fs', t0. split; [apply elem_of_app; right; left|].
    split; [done|]. split; [done|].
    split; [intros ev' Hev'; apply elem_of_app; by right|].
    right. split; [done|]. split; [done|]. by exists (concat ts).
Qed.
End OrderlyRun.

(** ** Whole runs *)

Section Runs.
Context (E : Env).

End Runs.

(** ** A process that fails its seed *)



Section Failures.
Context (E : Env).


End Failures.

(** C3, amended.  In a Boltz run, when a seed's subprocess exits with
    code 0 and the standard output the driver captured from it contains
    the literal substring "WARNING: ran out of memory", the run returns
    [False]. *)
Theorem run_boltz_out_of_memory (E : Env) (input_json output_dir working_dir : Path)
    (seeds : list Z) (test : bool) (number_of_models num_recycles : Z)
    (sif_path : option Path) (fs : FS)
    (seed : Z) (out err : string) (fs1 : FS) :
  let run :=
    run_boltz E input_json output_dir working_dir seeds test
      number_of_models num_recycles sif_path fs in
  Exit seed 0 (Some out) err fs1 ∈ run.2 →
  (∃ a b, out = a +:+ "WARNING: ran out of memory" +:+ b) →
  run.1.1 = Return false.
Proof.
  intros run Hin Hsub. apply contains_spec in Hsub.
  subst run. destruct (run_boltz _ _ _ _ _ _ _ _ _ _) as [[r fs'] t] eqn:Hrun.
  cbn [fst snd] in *. unfold run_boltz in Hrun.
  pose proof (boltz_seed_orderly E input_json output_dir working_dir test
                number_of_models num_recycles sif_path) as Hbody.
  destruct (run_elem _ Hbody _ _ _ _ _ _ Hrun Hin)
    as (x & fs0 & r0 & fs2 & t0 & _ & Hstep & Hin0 & _ & Hlast).
  pose proof (boltz_seed_out_of_memory _ _ _ _ _ _ _ _ _ _ _ _ _ Hstep
                _ _ _ _ Hin0 Hsub) as ->.
  by destruct Hlast as [[? _]|(-> & _)].
Qed.

Lemma run_boltz_out_of_memory_witness :
  (run_boltz (example_env runs_out_of_memory) ["in"; "job.json"]%string
     ["out"%string] ["/"; "tmp"]%string [1%Z] false 5 10 None example_fs).1.1
  = Return false.
Proof.
  eapply (run_boltz_out_of_memory _ _ _ _ _ _ _ _ _ _ 1
            "WARNING: ran out of memory, skipping batch" "").
  - apply list_elem_of_lookup_2 with 2. vm_compute. reflexivity.
  - by exists EmptyString, ", skipping batch"%string.
Defined.

(** C3 fails for Chai-1: the tool exits with code 0 after printing the
    warning, and the run returns [True]. *)
Lemma run_chai_ignores_out_of_memory :
  let E := example_env runs_out_of_memory in
  (∀ fs cmd, ∃ out err fs',
     popen E fs cmd = Exited 0 out err fs' ∧
     contains "WARNING: ran out of memory" out = true) ∧
  (run_chai E ["in"; "job.fasta"]%string ["in"; "msa"]%string None
     ["out"%string] [1%Z] false 5 10 false None None example_fs).1.1
  = Return true.
Proof.
  split; [|by vm_compute].
  intros fs cmd. by eexists _, _, _.
Qed.




(** C9.  With an empty seed list both drivers return [True], leave the
    filesystem as it is and log nothing: no command is built, no process
    spawned and no error log written. *)
Theorem run_without_seeds (E : Env) (fs : FS) :
  (∀ (input_json output_dir working_dir : Path) (test : bool)
     (number_of_models num_recycles : Z) (sif_path : option Path),
     run_boltz E input_json output_dir working_dir [] test
       number_of_models num_recycles sif_path fs = (Return true, fs, [])) ∧
  (∀ (out_fasta msa_dir : Path) (out_constraints : option Path)
     (output_dir : Path) (test : bool) (number_of_models num_recycles : Z)
     (use_templates_server : bool) (template_hits_path sif_path : option Path),
     run_chai E out_fasta msa_dir out_constraints output_dir [] test
       number_of_models num_recycles use_templates_server
       template_hits_path sif_path fs = (Return true, fs, [])).
Proof. by split. Qed.




(** C8, amended.  In containerized mode [run_chai] has made the per-seed
    output directory, the host side of the [/output] bind, before it
    launches the seed's subprocess: in the filesystem in which the
    process is spawned the directory exists.  ([run_boltz] makes no
    directory.) *)
Theorem run_chai_makes_output_directory (E : Env)
    (out_fasta msa_dir : Path) (out_constraints : option Path)
    (output_dir : Path) (seeds : list Z) (test : bool)
    (number_of_models num_recycles : Z) (use_templates_server : bool)
    (template_hits_path : option Path) (sif_path : Path) (fs : FS)
    (seed : Z) (cmd : list string) (fs1 : FS) :
  let run :=
    run_chai E out_fasta msa_dir out_constraints output_dir seeds test
      number_of_models num_recycles use_templates_server
      template_hits_path (Some sif_path) fs in
  Spawn seed cmd fs1 ∈ run.2 →
  is_dir E fs1 (joinpath output_dir ("chai_output_seed-" +:+ pretty seed)) = true.
Proof.
  intros run Hin. subst run.
  destruct (run_chai _ _ _ _ _ _ _ _ _ _ _ _ _) as [[r fs'] t] eqn:Hrun.
  cbn [fst snd] in *. unfold run_chai in Hrun.
  pose proof (chai_seed_orderly E out_fasta msa_dir out_constraints
                output_dir test number_of_models num_recycles
                use_templates_server template_hits_path (Some sif_path))
    as Hbody.
  destruct (run_elem _ Hbody _ _ _ _ _ _ Hrun Hin)
    as (x & fs0 & r0 & fs2 & t0 & _ & Hstep & Hin0 & _).
  pose proof (chai_seed_calls _ _ _ _ _ _ _ _ _ _ _ _ _ _ _ _ Hstep)
    as (_ & Hspawn & _).
  destruct (Hspawn _ _ _ Hin0) as (-> & _ & [Hmk _] & _).
  eapply mkdir_parents_is_dir. by apply Hmk.
Qed.

Lemma run_chai_makes_output_directory_witness :
  let E := example_env always_succeeds in
  let run :=
    run_chai E ["in"; "job.fasta"]%string ["in"; "msa"]%string None
      ["new"%string] [7%Z] false 5 10 false None
      (Some ["img.sif"%string]) example_fs in
  example_fs !! ["/"; "work"; "new"]%string = None ∧
  ∃ cmd fs1,
    run.2 !! 1 = Some (Spawn 7 cmd fs1) ∧
    is_dir E fs1 ["new"; "chai_output_seed-7"]%string = true.
Proof.
  intros E run. split; [by vm_compute|].
  set (cmd := match run.2 !! 1 with Some (Spawn _ c _) => c | _ => [] end).
  set (fs1 := match run.2 !! 1 with Some (Spawn _ _ f) => f | _ => ∅ end).
  exists cmd, fs1. split; [by vm_compute|].
  apply (run_chai_makes_output_directory E ["in"; "job.fasta"]%string
           ["in"; "msa"]%string None ["new"%string] [7%Z] false 5%Z 10%Z false
           None ["img.sif"%string] example_fs 7%Z cmd fs1).
  apply list_elem_of_lookup_2 with 1. by vm_compute.
Defined.

(** C8 fails for Boltz: in containerized mode, with an output directory
    [/work/new] that does not exist, [run_boltz] spawns the process with a
    bind of that directory while it still does not exist, and it is not
    there when the run returns either. *)
Lemma run_boltz_makes_no_directory :
  let E := example_env always_succeeds in
  let run :=
    run_boltz E ["in"; "job.json"]%string ["new"%string] ["/"; "tmp"]%string
      [7%Z] false 5 10 (Some ["img.sif"%string]) example_fs in
  ∃ cmd fs1,
    run.2 !! 1 = Some (Spawn 7 cmd fs1) ∧
    "/work/new:/output"%string ∈ cmd ∧
    path_exists E fs1 ["new"%string] = false ∧
    run.1.1 = Return true ∧
    path_exists E run.1.2 ["new"%string] = false.
Proof.
  intros E run.
  set (cmd := match run.2 !! 1 with Some (Spawn _ c _) => c | _ => [] end).
  set (fs1 := match run.2 !! 1 with Some (Spawn _ _ f) => f | _ => ∅ end).
  exists cmd, fs1. split; [by vm_compute|]. split; [|by vm_compute].
  apply list_elem_of_lookup_2 with 6. by vm_compute.
Qed.




(** ** The command builders *)

(** C2, on the code.  In bare mode [generate_chai_command] raises
    [AssertionError] whenever the templates server and a template hits
    file are both requested.  In containerized mode it does not: the
    branch returns before the assertion, and the command it returns
    carries both [--use-templates-server] and [--template-hits-path]. *)
Theorem generate_chai_command_both_templates :
  (∀ (E : Env) (fs : FS) (input_fasta msa_dir : Path)
     (input_constraints : option Path) (output_dir : Path)
     (number_of_models num_recycles seed : Z) (template_hits_path : Path),
     generate_chai_command E fs input_fasta msa_dir input_constraints
       output_dir number_of_models num_recycles seed
       true (Some template_hits_path) None
     = inl AssertionError) ∧
  generate_chai_command (example_env always_succeeds) example_fs
    ["in"; "job.fasta"]%string ["in"; "msa"]%string None ["out"%string]
    5 10 42 true (Some ["in"; "hits.m8"]%string) (Some ["img.sif"%string])
  = inr [
      "/usr/bin/apptainer"; "exec"; "--nv";
      "--bind"; "/opt/abcfold/chai1:/abcfold_chai";
      "--bind"; "/work/in:/input";
      "--bind"; "/work/out:/output";
      "/work/img.sif"; "python"; "/abcfold_chai/chai.py"; "fold";
      "/input/job.fasta";
      "--num-diffn-samples"; "5"; "--num-trunk-recycles"; "10";
      "--seed"; "42";
      "--use-templates-server";
      "--template-hits-path"; "/input/hits.m8";
      "/output"
    ]%string.
Proof.
  split; [|by vm_compute].
  intros. unfold generate_chai_command. reflexivity.
Qed.

Lemma pretty_N_ne_dash (x : N) (s : string) : pretty x ≠ "-" +:+ s.
Proof.
  unfold pretty, pretty_N. case_decide; [done|].
  by apply pretty_N_go_ne_dash.
Qed.

Lemma pretty_Z_ne_bind (z : Z) : pretty z ≠ "--bind".
Proof.
  destruct z as [|x|x]; [done|apply (pretty_N_ne_dash (Npos x) "-bind")|].
  unfold pretty, pretty_Z. intros [= Heq].
  by apply (pretty_N_ne_dash (Npos x) "bind").
Qed.

Lemma rooted_ne_bind (mount rest : string) :
  rooted mount → mount +:+ rest ≠ "--bind".
Proof. by intros [s ->]. Qed.

Lemma rooted_ne_bind' (mount : string) : rooted mount → mount ≠ "--bind".
Proof. by intros [s ->]. Qed.

Lemma truthy_rooted (mount : string) : rooted mount → truthy (Some mount) = true.
Proof. by intros [s ->]. Qed.

Section AllocatorShape.
Variable resolve : Path → Path.

Lemma ensure_bind_rooted (m : BindMap) (path : Path) (preferred : string) :
  Forall rooted m.*2 → rooted preferred →
  rooted (ensure_bind resolve m path preferred).1 ∧
  Forall rooted (ensure_bind resolve m path preferred).2.*2.
Proof.
  intros Hm Hpref.
  destruct (ensure_bind_cases resolve m path preferred)
    as [[Hget ->]|(_ & _ & Hdis & ->)].
  - split; [|done]. rewrite Forall_forall in Hm. apply Hm.
    apply dict_get_Some_elem in Hget. apply list_elem_of_fmap.
    by eexists (_, _).
  - assert (rooted (ensure_bind resolve m path preferred).1) as Hd.
    { by eapply disambiguates_rooted. }
    split; [done|]. rewrite fmap_app. apply Forall_app. split; [done|].
    by apply Forall_singleton.
Qed.

Lemma allocate_rooted (requests : list (Path * string)) (m : BindMap) :
  Forall rooted m.*2 → Forall (λ r, rooted r.2) requests →
  Forall rooted (allocate resolve m requests).1.
Proof.
  revert m. induction requests as [|[p pref] rest IH]; intros m Hm Hreq.
  - constructor.
  - apply Forall_cons in Hreq as [Hpref Hrest]. rewrite allocate_cons.
    destruct (ensure_bind_rooted m p pref Hm Hpref) as [Hd Hm'].
    constructor; [done|]. by apply IH.
Qed.

Lemma allocate_keys (requests : list (Path * string)) (m : BindMap) :
  (allocate resolve m requests).2.*1 =
    foldl (λ acc x, if decide (x ∈ acc) then acc else acc ++ [x])
      m.*1 (resolve <$> requests.*1).
Proof.
  revert m. induction requests as [|[p pref] rest IH]; intros m; [done|].
  rewrite allocate_cons. cbn [snd]. rewrite IH. simpl. f_equal.
  destruct (ensure_bind_cases resolve m p pref)
    as [[Hget ->]|(Hfresh & _ & _ & ->)].
  - rewrite decide_True; [done|]. apply dict_get_Some_elem in Hget.
    apply list_elem_of_fmap. by eexists (_, _).
  - rewrite decide_False by done. by rewrite fmap_app.
Qed.

Lemma allocate_values (requests : list (Path * string)) (m : BindMap)
    (v : string) :
  v ∈ (allocate resolve m requests).2.*2 →
  v ∈ m.*2 ∨ v ∈ (allocate resolve m requests).1.
Proof.
  revert m. induction requests as [|[p pref] rest IH]; intros m; [by left|].
  rewrite allocate_cons. cbn [fst snd]. intros [Hv|Hv]%IH.
  - destruct (ensure_bind_cases resolve m p pref)
      as [[_ Heq]|(_ & _ & _ & Heq)]; rewrite Heq in Hv; [by left|].
    rewrite fmap_app in Hv. apply elem_of_app in Hv as [?|Hv]; [by left|].
    apply list_elem_of_singleton in Hv as ->. right. left.
  - right. by right.
Qed.

(** What a builder gets from the allocator for the directories its
    command refers to. *)
Lemma allocate_shape (requests : list (Path * string))
    (dests : list string) (bind_map : BindMap) :
  allocate resolve [] requests = (dests, bind_map) →
  Forall (λ r, rooted r.2) requests →
  bind_map.*1 = first_occurrences (resolve <$> requests.*1) ∧
  bijective bind_map ∧
  Forall rooted dests ∧
  (∀ v, v ∈ bind_map.*2 → v ∈ dests).
Proof.
  intros Halloc Hreq.
  pose proof (allocate_keys requests []) as Hkeys.
  pose proof (allocate_bijective resolve requests []) as Hbij.
  pose proof (allocate_rooted requests [] (Forall_nil_2 _) Hreq) as Hroot.
  pose proof (allocate_values requests []) as Hvals.
  rewrite Halloc in Hkeys, Hbij, Hroot, Hvals.
  split; [done|]. split; [apply Hbij; split; apply NoDup_nil_2|].
  split; [done|]. intros v [Hv|Hv]%Hvals; [|done].
  by apply elem_of_nil in Hv.
Qed.
End AllocatorShape.

(** Settles that an argument of a tool is not ["--bind"]. *)
Ltac ne_bind :=
  first [done
        |apply not_eq_sym;
         auto using pretty_Z_ne_bind, rooted_ne_bind, rooted_ne_bind'].


(** Finds the argument of an explicit list that a mount name begins. *)
Ltac find_arg :=
  first [apply Exists_cons_hd;
         solve [eexists; reflexivity
               |exists EmptyString; apply string_app_empty_r]
        |apply Exists_cons_tl; find_arg].

(** Settles that every bound mount name begins an argument, from the
    fact [Hvals] that the bound names are among the names allocated. *)
Ltac mounts_used Hvals :=
  apply Forall_forall; intros mount Hm; apply Hvals in Hm;
  elem_cases Hm; find_arg.

(** Settles [x ∉ l] for an explicit list [l]. *)
Ltac not_in_list :=
  repeat (apply not_elem_of_cons; split); [..|apply not_elem_of_nil].

(** Computes what the allocator returns for a list of requests from the
    equations of the single requests. *)
Ltac run_allocate :=
  rewrite ?allocate_cons; cbn [allocate fst snd];
  repeat match goal with
         | H : ensure_bind _ _ _ _ = _ |- _ => rewrite H; cbn [fst snd]
         end;
  reflexivity.

(** The loop over [bind_map.items()] appends the pair of each entry, in
    the order of the entries. *)
Lemma bind_flags_pairs (bind_map : BindMap) :
  bind_pairs bind_map (bind_flags bind_map).
Proof.
  unfold bind_pairs, bind_flags.
  induction bind_map as [|[src dst] m [IHlen IH]].
  { split; [done|]. by intros i host mount Hi. }
  change (((src, dst) :: m) ≫= _)
    with (["--bind"; str src +:+ ":" +:+ dst]%string
            ++ bind_flags m) in *.
  unfold bind_flags. split.
  { cbn [app length]. rewrite IHlen. lia. }
  intros [|i] host mount Hi.
  - injection Hi as <- <-. by split.
  - replace (2 * S i) with (S (S (2 * i))) by lia.
    replace (S (S (2 * i)) + 1) with (S (S (2 * i + 1))) by lia.
    cbn [app]. by apply IH.
Qed.

(** What a containerized command looks like when a builder returns one. *)
Lemma containerized_shape (E : Env) (sif_path : Path) (cmd : list string) :
  (∀ (input_yaml output_dir : Path) (number_of_models num_recycles seed : Z),
     generate_boltz_command E input_yaml output_dir number_of_models
       num_recycles seed (Some sif_path) = inr cmd →
     container_command E sif_path
       (boltz_requests E input_yaml output_dir).*1 cmd) ∧
  (∀ (fs : FS) (input_fasta msa_dir : Path) (input_constraints : option Path)
     (output_dir : Path) (number_of_models num_recycles seed : Z)
     (use_templates_server : bool) (template_hits_path : option Path),
     generate_chai_command E fs input_fasta msa_dir input_constraints
       output_dir number_of_models num_recycles seed use_templates_server
       template_hits_path (Some sif_path) = inr cmd →
     container_command E sif_path
       (chai_requests E fs input_fasta msa_dir input_constraints output_dir
          template_hits_path).*1 cmd) ∧
  (generate_boltz_test_command E (Some sif_path) = inr cmd →
   container_command E sif_path [] cmd) ∧
  (generate_chai_test_command E (Some sif_path) = inr cmd →
   container_command E sif_path [parent (joinpath (chai_dir E) "chai.py")] cmd).
Proof.
  split; [|split; [|split]].
  - intros input_yaml output_dir n rc seed. unfold generate_boltz_command.
    destruct (_resolve_container_runtime E) as [e|runtime] eqn:Hrt; [done|].
    destruct (ensure_bind (resolve E) [] _ "/input")
      as [input_mount bm1] eqn:H1.
    destruct (ensure_bind (resolve E) bm1 _ "/output")
      as [output_mount bm2] eqn:H2.
    intros [= <-].
    eassert (allocate (resolve E) [] (boltz_requests E input_yaml output_dir)
             = _) as Halloc.
    { unfold boltz_requests. run_allocate. }
    apply allocate_shape in Halloc as (Hkeys & Hbij & Hroot & Hvals).
    2: { repeat constructor; by eexists. }
    inversion_clear Hroot as [|?? Hin Hroot'].
    inversion_clear Hroot' as [|?? Hout _].
    eexists runtime, bm2, (bind_flags bm2), _. split; [done|]. split.
    { cbn [app]. reflexivity. }
    split; [apply bind_flags_pairs|]. split; [done|]. split; [done|].
    split; [not_in_list; ne_bind|mounts_used Hvals].
  - intros fs input_fasta msa_dir input_constraints output_dir n rc seed
      uts thp. unfold generate_chai_command.
    destruct (_resolve_container_runtime E) as [e|runtime] eqn:Hrt; [done|].
    destruct (ensure_bind (resolve E) [] _ "/abcfold_chai")
      as [chai_mount bm1] eqn:H1.
    destruct (ensure_bind (resolve E) bm1 _ "/input")
      as [input_mount bm2] eqn:H2.
    destruct (ensure_bind (resolve E) bm2 _ "/output")
      as [output_mount bm3] eqn:H3.
    destruct (path_exists E fs msa_dir) eqn:Hmsa;
      [destruct (ensure_bind (resolve E) bm3 msa_dir "/msa")
         as [msa_mount bm4] eqn:H4|];
      (destruct input_constraints as [constraints_path|];
       [destruct (path_exists E fs constraints_path) eqn:Hcon;
        [match goal with
         | |- context [ensure_bind (resolve E) ?m ?p "/constraints"] =>
             destruct (ensure_bind (resolve E) m p "/constraints")
               as [constraint_mount bm5] eqn:H5
         end|]|]);
      (destruct thp as [template_path|];
       [destruct (path_exists E fs template_path) eqn:Htem;
        [match goal with
         | |- context [ensure_bind (resolve E) ?m ?p "/templates"] =>
             destruct (ensure_bind (resolve E) m p "/templates")
               as [template_mount bm6] eqn:H6
         end|]|]);
      cbv beta iota zeta;
      match goal with
      | |- _ → container_command _ _ (?requests).*1 _ =>
          eassert (allocate (resolve E) [] requests = _) as Halloc;
          [unfold chai_requests; rewrite ?Hmsa, ?Hcon, ?Htem; cbn [app];
           run_allocate|];
          apply allocate_shape in Halloc as (Hkeys & Hbij & Hroot & Hvals);
          [|unfold chai_requests; rewrite ?Hmsa, ?Hcon, ?Htem;
            repeat constructor; by eexists]
      end;
      repeat match goal with
             | H : Forall rooted (_ :: _) |- _ => apply Forall_cons in H as [? H]
             end;
      rewrite ?truthy_rooted by done;
      destruct uts; cbn [truthy default from_option];
      intros Hcmd; injection Hcmd as <-;
      eexists runtime, _, (bind_flags _), _;
      (split; [done|]);
      (split; [rewrite <- ?(assoc_L (++)); cbn [app]; reflexivity|]);
      (split; [apply bind_flags_pairs|]);
      (split; [exact Hkeys|]); (split; [exact Hbij|]);
      (split; [not_in_list; ne_bind|mounts_used Hvals]).
  - unfold generate_boltz_test_command.
    destruct (_resolve_container_runtime E) as [e|runtime] eqn:Hrt; [done|].
    intros [= <-].
    exists runtime, [], [], ["boltz"; "predict"; "--help"]%string.
    split; [done|]. split; [done|]. split; [apply (bind_flags_pairs [])|].
    split; [done|].
    split; [split; apply NoDup_nil_2|].
    split; [not_in_list; done|constructor].
  - unfold generate_chai_test_command.
    destruct (_resolve_container_runtime E) as [e|runtime] eqn:Hrt; [done|].
    intros [= <-].
    exists runtime, [(resolve E (parent (joinpath (chai_dir E) "chai.py")),
                      "/abcfold_chai"%string)],
      (bind_flags [(resolve E (parent (joinpath (chai_dir E) "chai.py")),
                    "/abcfold_chai"%string)]),
      ["python"; "/abcfold_chai/chai.py"; "fold"; "--help"]%string.
    split; [done|]. split; [done|]. split; [apply bind_flags_pairs|].
    split; [done|].
    split; [split; apply NoDup_singleton|].
    split; [not_in_list; done|].
    apply Forall_cons. split; [find_arg|constructor].
Qed.


(** With a container runtime on the machine every containerized builder
    returns a command. *)
Lemma containerized_return (E : Env) (sif_path : Path) (runtime : string) :
  _resolve_container_runtime E = inr runtime →
  (∀ (input_yaml output_dir : Path) (number_of_models num_recycles seed : Z),
     ∃ cmd, generate_boltz_command E input_yaml output_dir number_of_models
              num_recycles seed (Some sif_path) = inr cmd) ∧
  (∀ (fs : FS) (input_fasta msa_dir : Path) (input_constraints : option Path)
     (output_dir : Path) (number_of_models num_recycles seed : Z)
     (use_templates_server : bool) (template_hits_path : option Path),
     ∃ cmd, generate_chai_command E fs input_fasta msa_dir input_constraints
              output_dir number_of_models num_recycles seed
              use_templates_server template_hits_path (Some sif_path)
            = inr cmd) ∧
  (∃ cmd, generate_boltz_test_command E (Some sif_path) = inr cmd) ∧
  (∃ cmd, generate_chai_test_command E (Some sif_path) = inr cmd).
Proof.
  intros Hrt. split; [|split; [|split]].
  - intros input_yaml output_dir n rc seed.
    unfold generate_boltz_command. rewrite Hrt.
    repeat (destruct (ensure_bind _ _ _ _)). by eexists.
  - intros fs input_fasta msa_dir input_constraints output_dir n rc seed
      uts thp. unfold generate_chai_command. rewrite Hrt.
    repeat match goal with
           | |- context [ensure_bind ?r ?m ?p ?pref] =>
               destruct (ensure_bind r m p pref)
           | |- context [path_exists E ?f ?p] => destruct (path_exists E f p)
           | |- context [match ?o with Some _ => _ | None => _ end] =>
               is_var o; destruct o
           end; by eexists.
  - unfold generate_boltz_test_command. rewrite Hrt. by eexists.
  - unfold generate_chai_test_command. rewrite Hrt. by eexists.
Qed.

(** C4.  On a machine with a container runtime every builder returns,
    for an image, a containerized command, and this command is the
    runtime with [exec --nv], then exactly one [--bind host:mount] pair
    for each distinct resolved host directory the command refers to, in
    the order in which they are allocated, then the image path and the
    tool's own invocation, which holds no bind pair.  This holds for
    [generate_boltz_command], [generate_chai_command] and the two test
    builders. *)
Theorem containerized_commands (E : Env) (sif_path : Path) (runtime : string) :
  _resolve_container_runtime E = inr runtime →
  (∀ (input_yaml output_dir : Path) (number_of_models num_recycles seed : Z),
     ∃ cmd,
       generate_boltz_command E input_yaml output_dir number_of_models
         num_recycles seed (Some sif_path) = inr cmd ∧
       container_command E sif_path
         (boltz_requests E input_yaml output_dir).*1 cmd) ∧
  (∀ (fs : FS) (input_fasta msa_dir : Path) (input_constraints : option Path)
     (output_dir : Path) (number_of_models num_recycles seed : Z)
     (use_templates_server : bool) (template_hits_path : option Path),
     ∃ cmd,
       generate_chai_command E fs input_fasta msa_dir input_constraints
         output_dir number_of_models num_recycles seed use_templates_server
         template_hits_path (Some sif_path) = inr cmd ∧
       container_command E sif_path
         (chai_requests E fs input_fasta msa_dir input_constraints output_dir
            template_hits_path).*1 cmd) ∧
  (∃ cmd,
     generate_boltz_test_command E (Some sif_path) = inr cmd ∧
     container_command E sif_path [] cmd) ∧
  (∃ cmd,
     generate_chai_test_command E (Some sif_path) = inr cmd ∧
     container_command E sif_path
       [parent (joinpath (chai_dir E) "chai.py")] cmd).
Proof.
  intros Hrt.
  destruct (containerized_return E sif_path runtime Hrt)
    as (Hboltz & Hchai & [cmd_bt Hbt] & [cmd_ct Hct]).
  split; [|split; [|split]].
  - intros input_yaml output_dir n rc seed.
    destruct (Hboltz input_yaml output_dir n rc seed) as [cmd Hcmd].
    exists cmd. split; [done|].
    by eapply (proj1 (containerized_shape E sif_path cmd)).
  - intros fs input_fasta msa_dir input_constraints output_dir n rc seed
      uts thp.
    destruct (Hchai fs input_fasta msa_dir input_constraints output_dir
                n rc seed uts thp) as [cmd Hcmd].
    exists cmd. split; [done|].
    by eapply (proj1 (proj2 (containerized_shape E sif_path cmd))).
  - exists cmd_bt. split; [done|].
    by apply (containerized_shape E sif_path cmd_bt).
  - exists cmd_ct. split; [done|].
    by apply (containerized_shape E sif_path cmd_ct).
Qed.

(** The four builders on the example machine: Boltz with two binds,
    Chai-1 with three (the template hits file is in the directory of the
    FASTA file), and the two test commands. *)
Lemma containerized_commands_witness :
  let E := example_env always_succeeds in
  container_command E ["img.sif"%string]
    [["/"; "tmp"]; ["/"; "work"; "out"]]%string
    [ "/usr/bin/apptainer"; "exec"; "--nv";
      "--bind"; "/tmp:/input";
      "--bind"; "/work/out:/output";
      "/work/img.sif"; "boltz"; "predict"; "/input/job_seed-1.yaml";
      "--out_dir"; "/output";
      "--override"; "--write_full_pae"; "--write_full_pde";
      "--diffusion_samples"; "5"; "--recycling_steps"; "10";
      "--seed"; "1" ]%string ∧
  container_command E ["img.sif"%string]
    [["/"; "opt"; "abcfold"; "chai1"]; ["in"]; ["out"]; ["in"]]%string
    [ "/usr/bin/apptainer"; "exec"; "--nv";
      "--bind"; "/opt/abcfold/chai1:/abcfold_chai";
      "--bind"; "/work/in:/input";
      "--bind"; "/work/out:/output";
      "/work/img.sif"; "python"; "/abcfold_chai/chai.py"; "fold";
      "/input/job.fasta";
      "--num-diffn-samples"; "5"; "--num-trunk-recycles"; "10";
      "--seed"; "42";
      "--template-hits-path"; "/input/hits.m8";
      "/output" ]%string ∧
  container_command E ["img.sif"%string] []
    [ "/usr/bin/apptainer"; "exec"; "--nv"; "/work/img.sif";
      "boltz"; "predict"; "--help" ]%string ∧
  container_command E ["img.sif"%string]
    [["/"; "opt"; "abcfold"; "chai1"]]%string
    [ "/usr/bin/apptainer"; "exec"; "--nv";
      "--bind"; "/opt/abcfold/chai1:/abcfold_chai";
      "/work/img.sif"; "python"; "/abcfold_chai/chai.py"; "fold";
      "--help" ]%string.
Proof.
  intros E.
  destruct (containerized_commands E ["img.sif"%string]
              "/usr/bin/apptainer"%string eq_refl)
    as (Hboltz & Hchai & (cmd_bt & Hbt & Hbt_shape)
        & (cmd_ct & Hct & Hct_shape)).
  split; [|split; [|split]].
  - destruct (Hboltz ["/"; "tmp"; "job_seed-1.yaml"]%string ["out"%string]
                5%Z 10%Z 1%Z) as (cmd & Hcmd & Hshape).
    vm_compute in Hcmd. injection Hcmd as <-. exact Hshape.
  - destruct (Hchai example_fs ["in"; "job.fasta"]%string
                ["in"; "msa"]%string None ["out"%string] 5%Z 10%Z 42%Z false
                (Some ["in"; "hits.m8"]%string)) as (cmd & Hcmd & Hshape).
    vm_compute in Hcmd. injection Hcmd as <-. exact Hshape.
  - vm_compute in Hbt. injection Hbt as <-. exact Hbt_shape.
  - vm_compute in Hct. injection Hct as <-. exact Hct_shape.
Defined.

(** * Further properties of the builders *)

(** X1.  [_resolve_container_runtime] prefers [apptainer]: it returns
    what [shutil.which] finds for [apptainer]; only when that finds
    nothing, what it finds for [singularity]; and it raises
    [FileNotFoundError] exactly when it finds neither.  The runtime it
    returns is never the empty string. *)
Theorem resolve_container_runtime_priority (E : Env) :
  (∀ r, which E "apptainer" = Some r → r ≠ EmptyString →
        _resolve_container_runtime E = inr r) ∧
  (∀ r, truthy (which E "apptainer") = false →
        which E "singularity" = Some r → r ≠ EmptyString →
        _resolve_container_runtime E = inr r) ∧
  (∀ e, _resolve_container_runtime E = inl e ↔
        e = FileNotFoundError ∧
        truthy (which E "apptainer") = false ∧
        truthy (which E "singularity") = false) ∧
  (∀ r, _resolve_container_runtime E = inr r → r ≠ EmptyString).
Proof.
  assert (∀ r, truthy (Some r) = true ↔ r ≠ EmptyString) as Htruthy.
  { intros r. unfold truthy. rewrite negb_true_iff. apply bool_decide_eq_false. }
  unfold _resolve_container_runtime.
  destruct (truthy (which E "apptainer")) eqn:Ha;
    [destruct (which E "apptainer") as [a|] eqn:Hwa; [rewrite Ha|done]
    |destruct (which E "singularity") as [s|] eqn:Hws;
     [destruct (truthy (Some s)) eqn:Hs|]];
    (split; [intros r Hr Hne
            |split; [intros r Ha' Hr Hne
                    |split; [intros e; split; [intros He|intros (-> & H1 & H2)]
                            |intros r Hr]]]);
    simplify_eq; try done;
    try (apply Htruthy in Hne; congruence);
    try (by apply Htruthy).
Qed.

Lemma resolve_container_runtime_priority_witness :
  _resolve_container_runtime (example_env always_succeeds)
    = inr "/usr/bin/apptainer"%string ∧
  _resolve_container_runtime singularity_env = inr "/usr/bin/singularity"%string.
Proof.
  split.
  - by apply (proj1 (resolve_container_runtime_priority _)).
  - by apply (proj1 (proj2 (resolve_container_runtime_priority _))).
Defined.



(** X3.  The containerized Boltz command in full.  The directory of the
    input file is bound at [/input].  When the output directory resolves
    to that same directory (the input is saved into the output directory)
    it is the only bind and [--out_dir] is [/input]; otherwise the output
    directory is bound second, at [/output].  No suffixed mount name
    occurs. *)
Theorem generate_boltz_command_container (E : Env) (input_yaml output_dir : Path)
    (number_of_models num_recycles seed : Z) (sif_path : Path)
    (runtime : string) :
  let input_dir := resolve E (parent (resolve E input_yaml)) in
  let output := resolve E (resolve E output_dir) in
  _resolve_container_runtime E = inr runtime →
  generate_boltz_command E input_yaml output_dir number_of_models
    num_recycles seed (Some sif_path) =
  inr ([runtime; "exec"; "--nv"; "--bind"; str input_dir +:+ ":/input"]%string
       ++ (if decide (input_dir = output) then []
           else ["--bind"; str output +:+ ":/output"]%string)
       ++ [str (resolve E sif_path); "boltz"; "predict";
           "/input/" +:+ name (resolve E input_yaml);
           "--out_dir";
           if decide (input_dir = output) then "/input" else "/output";
           "--override"; "--write_full_pae"; "--write_full_pde";
           "--diffusion_samples"; pretty number_of_models;
           "--recycling_steps"; pretty num_recycles;
           "--seed"; pretty seed]%string).
Proof.
  intros input_dir output Hrt. unfold generate_boltz_command. rewrite Hrt.
  unfold ensure_bind. cbn [dict_get dict_set length probe dict_values fmap list_fmap].
  fold input_dir output.
  rewrite bool_decide_eq_false_2 by apply not_elem_of_nil.
  cbn [dict_get dict_set]. destruct (decide (input_dir = output)) as [Heq|Hne].
  - reflexivity.
  - cbn [length probe fmap list_fmap snd].
    rewrite bool_decide_eq_false_2.
    + reflexivity.
    + by intros ?%list_elem_of_singleton.
Qed.

Lemma generate_boltz_command_container_witness :
  generate_boltz_command (example_env always_succeeds)
    ["out"; "job_seed-1.yaml"]%string ["out"%string] 5 10 1
    (Some ["img.sif"%string]) =
  inr ["/usr/bin/apptainer"; "exec"; "--nv"; "--bind"; "/work/out:/input";
       "/work/img.sif"; "boltz"; "predict"; "/input/job_seed-1.yaml";
       "--out_dir"; "/input"; "--override"; "--write_full_pae";
       "--write_full_pde"; "--diffusion_samples"; "5"; "--recycling_steps";
       "10"; "--seed"; "1"]%string.
Proof.
  by apply (generate_boltz_command_container (example_env always_succeeds)
              ["out"; "job_seed-1.yaml"]%string ["out"%string] 5%Z 10%Z 1%Z
              ["img.sif"%string] "/usr/bin/apptainer"%string).
Defined.

(** X4.  Optional files that are missing.  A constraints file that does
    not exist is left out in both modes: the command is the one built
    without constraints.  A template hits file that does not exist is
    left out in containerized mode; in bare mode its existence is not
    checked, and (with [kalign] installed and no templates server) the
    command ends with [--template-hits-path], the path as given, and the
    output directory. *)
Theorem generate_chai_command_missing_files (E : Env) (fs : FS)
    (input_fasta msa_dir output_dir : Path)
    (number_of_models num_recycles seed : Z) :
  (∀ constraints_path use_templates_server template_hits_path sif_path,
     path_exists E fs constraints_path = false →
     generate_chai_command E fs input_fasta msa_dir (Some constraints_path)
       output_dir number_of_models num_recycles seed use_templates_server
       template_hits_path sif_path =
     generate_chai_command E fs input_fasta msa_dir None
       output_dir number_of_models num_recycles seed use_templates_server
       template_hits_path sif_path) ∧
  (∀ input_constraints use_templates_server template_path sif_path,
     path_exists E fs template_path = false →
     generate_chai_command E fs input_fasta msa_dir input_constraints
       output_dir number_of_models num_recycles seed use_templates_server
       (Some template_path) (Some sif_path) =
     generate_chai_command E fs input_fasta msa_dir input_constraints
       output_dir number_of_models num_recycles seed use_templates_server
       None (Some sif_path)) ∧
  (∀ input_constraints template_path,
     which E "kalign" ≠ None →
     ∃ front,
       generate_chai_command E fs input_fasta msa_dir input_constraints
         output_dir number_of_models num_recycles seed false
         (Some template_path) None =
       inr (front ++ ["--template-hits-path"%string; str template_path;
                      str output_dir])).
Proof.
  split; [|split].
  - intros c uts thp sif Hc. unfold generate_chai_command. by rewrite Hc.
  - intros ic uts t sif Ht. unfold generate_chai_command. by rewrite Ht.
  - intros ic t Hk. unfold generate_chai_command.
    rewrite (bool_decide_eq_false_2 (which E "kalign" = None)) by done.
    cbn [andb orb]. eexists. f_equal.
    rewrite <- (assoc_L (++) _ [_; _] [_]). reflexivity.
Qed.

Lemma generate_chai_command_missing_files_witness :
  let E := example_env always_succeeds in
  generate_chai_command E example_fs ["in"; "job.fasta"]%string
    ["in"; "msa"]%string (Some ["in"; "no.restraints"]%string) ["out"%string]
    5 10 42 false (Some ["in"; "no.m8"]%string) (Some ["img.sif"%string]) =
  generate_chai_command E example_fs ["in"; "job.fasta"]%string
    ["in"; "msa"]%string None ["out"%string]
    5 10 42 false None (Some ["img.sif"%string]) ∧
  generate_chai_command E example_fs ["in"; "job.fasta"]%string
    ["in"; "msa"]%string None ["out"%string]
    5 10 42 false (Some ["in"; "no.m8"]%string) None =
  inr ["python"; "/opt/abcfold/chai1/chai.py"; "fold"; "in/job.fasta";
       "--num-diffn-samples"; "5"; "--num-trunk-recycles"; "10";
       "--seed"; "42"; "--template-hits-path"; "in/no.m8"; "out"]%string.
Proof.
  intros E. split; [|by vm_compute].
  destruct (generate_chai_command_missing_files E example_fs
              ["in"; "job.fasta"]%string ["in"; "msa"]%string ["out"%string]
              5%Z 10%Z 42%Z) as (Hcon & Htem & _).
  rewrite Hcon by by vm_compute. by apply Htem.
Defined.

(** Finds an element in a list built from [++] and [::]. *)
Ltac find_elem :=
  match goal with
  | |- _ ∈ _ ++ _ =>
      apply elem_of_app; first [right; find_elem | left; find_elem]
  | |- _ ∈ _ :: _ =>
      first [apply list_elem_of_here | apply list_elem_of_further; find_elem]
  end.

(** X5.  Templates and [kalign].  In bare mode without [kalign] on the
    PATH a request for templates (the server or a hits file, not both) is
    dropped: the command is the one built with no templates.  With
    [kalign], asking for the templates server puts
    [--use-templates-server] just before the output directory.  In
    containerized mode [kalign] is not looked for: asking for the
    templates server always puts the flag in the command. *)
Theorem generate_chai_command_kalign (E : Env) (fs : FS)
    (input_fasta msa_dir : Path) (input_constraints : option Path)
    (output_dir : Path) (number_of_models num_recycles seed : Z) :
  (∀ use_templates_server template_hits_path,
     which E "kalign" = None →
     ¬ (use_templates_server = true ∧ is_Some template_hits_path) →
     generate_chai_command E fs input_fasta msa_dir input_constraints
       output_dir number_of_models num_recycles seed use_templates_server
       template_hits_path None =
     generate_chai_command E fs input_fasta msa_dir input_constraints
       output_dir number_of_models num_recycles seed false None None) ∧
  (which E "kalign" ≠ None →
   ∃ front,
     generate_chai_command E fs input_fasta msa_dir input_constraints
       output_dir number_of_models num_recycles seed false None None =
     inr (front ++ [str output_dir]) ∧
     generate_chai_command E fs input_fasta msa_dir input_constraints
       output_dir number_of_models num_recycles seed true None None =
     inr (front ++ ["--use-templates-server"%string; str output_dir])) ∧
  (∀ template_hits_path sif_path cmd,
     generate_chai_command E fs input_fasta msa_dir input_constraints
       output_dir number_of_models num_recycles seed true
       template_hits_path (Some sif_path) = inr cmd →
     "--use-templates-server"%string ∈ cmd).
Proof.
  split; [|split].
  - intros uts thp Hk Hnot. unfold generate_chai_command. rewrite Hk.
    destruct uts, thp as [t|]; try done. destruct Hnot. by eauto.
  - intros Hk. unfold generate_chai_command.
    rewrite (bool_decide_eq_false_2 (which E "kalign" = None)) by done.
    cbn [andb orb]. eexists. split; [reflexivity|].
    f_equal. by rewrite <- !(assoc_L (++)).
  - intros thp sif cmd. unfold generate_chai_command.
    destruct (_resolve_container_runtime E) as [e|runtime]; [done|].
    repeat match goal with
           | |- context [ensure_bind ?r ?m ?p ?pref] =>
               destruct (ensure_bind r m p pref)
           | |- context [path_exists E ?f ?p] => destruct (path_exists E f p)
           | |- context [match ?o with Some _ => _ | None => _ end] =>
               is_var o; destruct o
           | |- context [truthy ?o] => destruct (truthy o)
           end;
      intros [= <-]; find_elem.
Qed.

Lemma generate_chai_command_kalign_witness :
  generate_chai_command (plain_env always_succeeds) example_fs
    ["in"; "job.fasta"]%string ["in"; "msa"]%string None ["out"%string]
    5 10 42 true None None =
  inr ["python"; "/opt/abcfold/chai1/chai.py"; "fold"; "in/job.fasta";
       "--num-diffn-samples"; "5"; "--num-trunk-recycles"; "10";
       "--seed"; "42"; "out"]%string ∧
  "--use-templates-server"%string ∈
    ["/usr/bin/apptainer"; "exec"; "--nv";
     "--bind"; "/opt/abcfold/chai1:/abcfold_chai";
     "--bind"; "/work/in:/input"; "--bind"; "/work/out:/output";
     "/work/img.sif"; "python"; "/abcfold_chai/chai.py"; "fold";
     "/input/job.fasta"; "--num-diffn-samples"; "5";
     "--num-trunk-recycles"; "10"; "--seed"; "42";
     "--use-templates-server"; "/output"]%string.
Proof.
  split.
  - destruct (generate_chai_command_kalign (plain_env always_succeeds)
                example_fs ["in"; "job.fasta"]%string ["in"; "msa"]%string None
                ["out"%string] 5%Z 10%Z 42%Z) as (Hdrop & _).
    rewrite Hdrop; [by vm_compute|done|]. by intros [_ [? [=]]].
  - destruct (generate_chai_command_kalign (example_env always_succeeds)
                example_fs ["in"; "job.fasta"]%string ["in"; "msa"]%string None
                ["out"%string] 5%Z 10%Z 42%Z) as (_ & _ & Hflag).
    apply (Hflag None ["img.sif"%string]). by vm_compute.
Defined.

(** * Further properties of the allocator *)

Section AllocatorUnsuffixed.
Variable resolve : Path → Path.

Lemma earlier_request_dec (requests : list (Path * string)) (rp : Path)
    (i : nat) :
  (∃ k q pr, k < i ∧ requests !! k = Some (q, pr) ∧ resolve q = rp) ∨
  (∀ k q pr, k < i → requests !! k = Some (q, pr) → resolve q ≠ rp).
Proof.
  induction i as [|i [(k & q & pr & Hk & Hq & Heq)|Hnone]].
  - right. intros; lia.
  - left. exists k, q, pr. split; [lia|done].
  - destruct (requests !! i) as [[q pr]|] eqn:Hi.
    + destruct (decide (resolve q = rp)) as [Heq|Hne].
      * left. exists i, q, pr. split; [lia|done].
      * right. intros k q' pr' Hk Hq'.
        destruct (decide (k = i)) as [->|]; [congruence|].
        eapply Hnone; [|done]. lia.
    + right. intros k q' pr' Hk Hq'.
      destruct (decide (k = i)) as [->|]; [congruence|].
      eapply Hnone; [|done]. lia.
Qed.

(** With pairwise distinct preferred names, every request gets the
    preferred name of the first request for its resolved path. *)
Lemma allocate_unsuffixed (requests : list (Path * string)) :
  NoDup requests.*2 →
  ∀ i p pref d,
    requests !! i = Some (p, pref) →
    (allocate resolve [] requests).1 !! i = Some d →
    ∃ j q,
      j ≤ i ∧ requests !! j = Some (q, d) ∧ resolve q = resolve p ∧
      ∀ k r pr, k < j → requests !! k = Some (r, pr) → resolve r ≠ resolve p.
Proof.
  intros Hnd i. induction i as [i IH] using lt_wf_ind.
  intros p pref d Hi Hd.
  destruct (earlier_request_dec requests (resolve p) i)
    as [(k & q & pr & Hk & Hq & Heq)|Hfirst].
  - destruct ((allocate resolve [] requests).1 !! k) as [dk|] eqn:Hdk.
    2: { apply lookup_ge_None in Hdk. rewrite allocate_length in Hdk.
         apply lookup_lt_Some in Hq. lia. }
    destruct (IH k Hk q pr dk Hq Hdk) as (j & q' & Hj & Hq' & Heq' & Hmin).
    assert (d = dk) as ->.
    { pose proof (allocate_get resolve _ _ _ _ _ _ Hi Hd) as H1.
      pose proof (allocate_get resolve _ _ _ _ _ _ Hq Hdk) as H2.
      rewrite Heq in H2. congruence. }
    exists j, q'. split; [lia|]. split; [done|]. split; [congruence|].
    intros k' r pr' Hk' Hr. rewrite <- Heq. by eapply Hmin.
  - exists i, p. split; [done|]. split; [|done].
    destruct (allocate_first resolve requests [] i p pref d Hi Hd)
      as (n & Hn & -> & _ & Hbelow); [apply not_elem_of_nil|done|].
    destruct (decide (n = 1)) as [->|Hn1]; [done|]. exfalso.
    assert (1 ≤ 1 < n) as H1n by lia.
    pose proof (Hbelow 1 H1n) as Hin.
    change (candidate pref 1) with pref in Hin.
    apply elem_of_app in Hin as [Hin|Hin]; [by apply elem_of_nil in Hin|].
    apply list_elem_of_lookup_1 in Hin as [k Hk].
    apply lookup_take_Some in Hk as [Hk Hlt].
    destruct (requests !! k) as [[q pr]|] eqn:Hq.
    2: { apply lookup_ge_None in Hq. apply lookup_lt_Some in Hi. lia. }
    destruct (IH k Hlt q pr pref Hq Hk) as (j & q' & Hj & Hq' & _).
    assert (j = i); [|lia].
    apply (NoDup_lookup requests.*2 j i pref Hnd);
      rewrite list_lookup_fmap; [by rewrite Hq'|by rewrite Hi].
Qed.
End AllocatorUnsuffixed.

(** X6.  The allocator adds a suffix only to tell apart requests that ask
    for the same mount name: when the preferred names of the requests of
    one build are pairwise distinct, every request gets, unsuffixed, the
    preferred name of the first request whose path resolves to the same
    path as its own; a path requested for the first time gets its own
    preferred name. *)
Theorem ensure_bind_unsuffixed (resolve : Path → Path)
    (requests : list (Path * string)) (i : nat) (p : Path) (pref d : string) :
  NoDup requests.*2 →
  requests !! i = Some (p, pref) →
  (allocate resolve [] requests).1 !! i = Some d →
  (∃ j q,
     j ≤ i ∧ requests !! j = Some (q, d) ∧ resolve q = resolve p ∧
     ∀ k r pr, k < j → requests !! k = Some (r, pr) → resolve r ≠ resolve p) ∧
  ((∀ k r pr, k < i → requests !! k = Some (r, pr) → resolve r ≠ resolve p) →
   d = pref).
Proof.
  intros Hnd Hi Hd.
  destruct (allocate_unsuffixed resolve requests Hnd i p pref d Hi Hd)
    as (j & q & Hj & Hq & Heq & Hmin).
  split; [by exists j, q|]. intros Hfirst.
  destruct (decide (j = i)) as [->|Hne]; [congruence|].
  destruct (Hfirst j q d); [lia|done|done].
Qed.

Lemma ensure_bind_unsuffixed_witness :
  let resolve := lexical_resolve ["/"; "work"]%string in
  let requests :=
    [(["out"], "/input"); (["run"], "/output"); (["out"; ".."; "out"], "/msa")]%string in
  (allocate resolve [] requests).1 = ["/input"; "/output"; "/input"]%string ∧
  ∃ j q,
    j ≤ 2 ∧ requests !! j = Some (q, "/input"%string) ∧
    resolve q = resolve ["out"; ".."; "out"]%string ∧
    ∀ k r pr, k < j → requests !! k = Some (r, pr) →
              resolve r ≠ resolve ["out"; ".."; "out"]%string.
Proof.
  intros resolve requests. split; [by vm_compute|].
  apply (ensure_bind_unsuffixed resolve requests 2
           ["out"; ".."; "out"]%string "/msa"%string "/input"%string);
    [|by vm_compute..].
  repeat constructor; rewrite ?elem_of_cons, elem_of_nil; intros H;
    repeat destruct H as [H|H]; done.
Defined.

Lemma last_cons_app {A} (x y : A) (l1 l2 : list A) :
  last (x :: l1 ++ y :: l2) = last (y :: l2).
Proof. apply (last_app_cons (x :: l1)). Qed.

(** The containerized Chai-1 command is built on what the allocator
    returns for [chai_requests]: the bind pairs are its bind map and the
    last argument is the mount of its third request, the output
    directory. *)
Lemma generate_chai_command_allocate (E : Env) (fs : FS)
    (input_fasta msa_dir : Path) (input_constraints : option Path)
    (output_dir : Path) (number_of_models num_recycles seed : Z)
    (use_templates_server : bool) (template_hits_path : option Path)
    (sif_path : Path) (cmd : list string) :
  generate_chai_command E fs input_fasta msa_dir input_constraints
    output_dir number_of_models num_recycles seed use_templates_server
    template_hits_path (Some sif_path) = inr cmd →
  ∃ (runtime : string) (dests : list string) (bind_map : BindMap)
    (tool : list string),
    allocate (resolve E) []
      (chai_requests E fs input_fasta msa_dir input_constraints output_dir
         template_hits_path) = (dests, bind_map) ∧
    _resolve_container_runtime E = inr runtime ∧
    cmd = [runtime; "exec"; "--nv"]%string ++ bind_flags bind_map
            ++ str (resolve E sif_path) :: tool ∧
    last cmd = dests !! 2.
Proof.
  unfold generate_chai_command.
  destruct (_resolve_container_runtime E) as [e|runtime] eqn:Hrt; [done|].
  destruct (ensure_bind (resolve E) [] _ "/abcfold_chai")
    as [chai_mount bm1] eqn:H1.
  destruct (ensure_bind (resolve E) bm1 _ "/input")
    as [input_mount bm2] eqn:H2.
  destruct (ensure_bind (resolve E) bm2 _ "/output")
    as [output_mount bm3] eqn:H3.
  destruct (path_exists E fs msa_dir) eqn:Hmsa;
    [destruct (ensure_bind (resolve E) bm3 msa_dir "/msa")
       as [msa_mount bm4] eqn:H4|];
    (destruct input_constraints as [constraints_path|];
     [destruct (path_exists E fs constraints_path) eqn:Hcon;
      [match goal with
       | |- context [ensure_bind (resolve E) ?m ?p "/constraints"] =>
           destruct (ensure_bind (resolve E) m p "/constraints")
             as [constraint_mount bm5] eqn:H5
       end|]|]);
    (destruct template_hits_path as [template_path|];
     [destruct (path_exists E fs template_path) eqn:Htem;
      [match goal with
       | |- context [ensure_bind (resolve E) ?m ?p "/templates"] =>
           destruct (ensure_bind (resolve E) m p "/templates")
             as [template_mount bm6] eqn:H6
       end|]|]);
    cbv beta iota zeta;
    match goal with
    | |- _ → ∃ _ _ _ _, allocate _ _ ?requests = _ ∧ _ =>
        eassert (allocate (resolve E) [] requests = _) as Halloc;
        [unfold chai_requests; rewrite ?Hmsa, ?Hcon, ?Htem; cbn [app];
         run_allocate|];
        pose proof Halloc as Hshape;
        apply allocate_shape in Hshape as (_ & _ & Hroot & _);
        [|unfold chai_requests; rewrite ?Hmsa, ?Hcon, ?Htem;
          repeat constructor; by eexists]
    end;
    repeat match goal with
           | H : Forall rooted (_ :: _) |- _ => apply Forall_cons in H as [? H]
           end;
    rewrite ?truthy_rooted by done;
    destruct use_templates_server; cbn [truthy default from_option];
    intros Hcmd; injection Hcmd as <-;
    eexists runtime, _, _, _;
    (split; [exact Halloc|]); (split; [done|]);
    (split; [rewrite <- ?(assoc_L (++)); cbn [app]; reflexivity
            |rewrite <- ?(assoc_L (++)); cbn [app];
             rewrite !last_cons_cons, last_cons_app; reflexivity]).
Qed.

(** The mount names [generate_chai_command] asks for are distinct
    literals. *)
Lemma chai_requests_preferred (E : Env) (fs : FS) (input_fasta msa_dir : Path)
    (input_constraints : option Path) (output_dir : Path)
    (template_hits_path : option Path) :
  let preferred :=
    (chai_requests E fs input_fasta msa_dir input_constraints output_dir
       template_hits_path).*2 in
  NoDup preferred ∧
  Forall (λ m, m ∈ ["/abcfold_chai"; "/input"; "/output"; "/msa";
                    "/constraints"; "/templates"]%string) preferred.
Proof.
  unfold chai_requests.
  destruct (path_exists E fs msa_dir), input_constraints as [c|],
    template_hits_path as [t|];
    try destruct (path_exists E fs c); try destruct (path_exists E fs t);
    cbn [app fmap list_fmap snd];
    (split; [apply (bool_decide_unpack _); by vm_compute
            |repeat constructor; find_elem]).
Qed.

(** X7.  In a containerized Chai-1 command every bind pair mounts its
    host directory at one of [/abcfold_chai], [/input], [/output], [/msa],
    [/constraints] and [/templates]: the names the builder asks for are
    distinct, so the allocator never adds a suffix. *)
Theorem generate_chai_command_mounts (E : Env) (fs : FS)
    (input_fasta msa_dir : Path) (input_constraints : option Path)
    (output_dir : Path) (number_of_models num_recycles seed : Z)
    (use_templates_server : bool) (template_hits_path : option Path)
    (sif_path : Path) (cmd : list string) :
  generate_chai_command E fs input_fasta msa_dir input_constraints
    output_dir number_of_models num_recycles seed use_templates_server
    template_hits_path (Some sif_path) = inr cmd →
  ∃ (runtime : string) (bind_map : BindMap) (tool : list string),
    cmd = [runtime; "exec"; "--nv"]%string ++ bind_flags bind_map
            ++ str (resolve E sif_path) :: tool ∧
    Forall (λ m, m ∈ ["/abcfold_chai"; "/input"; "/output"; "/msa";
                      "/constraints"; "/templates"]%string) bind_map.*2.
Proof.
  intros (runtime & dests & bind_map & tool & Halloc & _ & Hcmd & _)
    %generate_chai_command_allocate.
  exists runtime, bind_map, tool. split; [done|].
  destruct (chai_requests_preferred E fs input_fasta msa_dir input_constraints
              output_dir template_hits_path) as [Hnd Hlit].
  rewrite Forall_forall in Hlit. apply Forall_forall. intros m Hm.
  pose proof (allocate_values (resolve E) (chai_requests E fs input_fasta
    msa_dir input_constraints output_dir template_hits_path) [] m) as Hvals.
  rewrite Halloc in Hvals. destruct (Hvals Hm) as [Hnil|Hd].
  { by apply elem_of_nil in Hnil. }
  apply list_elem_of_lookup_1 in Hd as [i Hi].
  destruct (chai_requests E fs input_fasta msa_dir input_constraints
              output_dir template_hits_path !! i) as [[p pref]|] eqn:Hreq.
  2: { apply lookup_ge_None in Hreq. apply lookup_lt_Some in Hi.
       pose proof (allocate_length (resolve E) (chai_requests E fs input_fasta
         msa_dir input_constraints output_dir template_hits_path) []) as Hlen.
       rewrite Halloc in Hlen. cbn [fst] in Hlen, Hi. lia. }
  destruct (allocate_unsuffixed (resolve E) _ Hnd i p pref m Hreq)
    as (j & q & _ & Hq & _); [by rewrite Halloc|].
  apply Hlit, list_elem_of_fmap. exists (q, m). split; [done|].
  by eapply list_elem_of_lookup_2.
Qed.

Lemma generate_chai_command_mounts_witness :
  ∃ (runtime : string) (bind_map : BindMap) (tool : list string),
    [ "/usr/bin/apptainer"; "exec"; "--nv";
      "--bind"; "/opt/abcfold/chai1:/abcfold_chai";
      "--bind"; "/work/in:/input";
      "--bind"; "/work/out:/output";
      "/work/img.sif"; "python"; "/abcfold_chai/chai.py"; "fold";
      "/input/job.fasta";
      "--num-diffn-samples"; "5"; "--num-trunk-recycles"; "10";
      "--seed"; "42";
      "--template-hits-path"; "/input/hits.m8";
      "/output" ]%string
    = [runtime; "exec"; "--nv"]%string ++ bind_flags bind_map
        ++ str (resolve (example_env always_succeeds) ["img.sif"%string]) :: tool ∧
    Forall (λ m, m ∈ ["/abcfold_chai"; "/input"; "/output"; "/msa";
                      "/constraints"; "/templates"]%string) bind_map.*2.
Proof.
  apply (generate_chai_command_mounts (example_env always_succeeds) example_fs
           ["in"; "job.fasta"]%string ["in"; "msa"]%string None ["out"%string]
           5%Z 10%Z 42%Z false (Some ["in"; "hits.m8"]%string)
           ["img.sif"%string]).
  by vm_compute.
Defined.

(** X8.  The last argument of a containerized Chai-1 command is the mount
    the bind pairs give the output directory; it is [/output] unless the
    output directory resolves to the directory of [chai.py] or to that of
    the FASTA file. *)
Theorem generate_chai_command_output_last (E : Env) (fs : FS)
    (input_fasta msa_dir : Path) (input_constraints : option Path)
    (output_dir : Path) (number_of_models num_recycles seed : Z)
    (use_templates_server : bool) (template_hits_path : option Path)
    (sif_path : Path) (cmd : list string) :
  generate_chai_command E fs input_fasta msa_dir input_constraints
    output_dir number_of_models num_recycles seed use_templates_server
    template_hits_path (Some sif_path) = inr cmd →
  ∃ (runtime : string) (bind_map : BindMap) (tool : list string)
    (output_mount : string),
    cmd = [runtime; "exec"; "--nv"]%string ++ bind_flags bind_map
            ++ str (resolve E sif_path) :: tool ∧
    dict_get bind_map (resolve E output_dir) = Some output_mount ∧
    last cmd = Some output_mount ∧
    (resolve E output_dir ≠ resolve E (parent (joinpath (chai_dir E) "chai.py")) →
     resolve E output_dir ≠ resolve E (parent input_fasta) →
     output_mount = "/output"%string).
Proof.
  intros (runtime & dests & bind_map & tool & Halloc & _ & Hcmd & Hlast)
    %generate_chai_command_allocate.
  set (requests := chai_requests E fs input_fasta msa_dir input_constraints
                     output_dir template_hits_path) in *.
  assert (requests !! 2 = Some (output_dir, "/output"%string)) as Hreq by done.
  destruct (dests !! 2) as [output_mount|] eqn:Hd.
  2: { apply lookup_ge_None in Hd.
       pose proof (allocate_length (resolve E) requests []) as Hlen.
       rewrite Halloc in Hlen. apply lookup_lt_Some in Hreq.
       cbn [fst] in Hlen. lia. }
  exists runtime, bind_map, tool, output_mount. split; [done|].
  split; [|split; [done|]].
  - pose proof (allocate_get (resolve E) requests [] 2 output_dir
                  "/output"%string output_mount Hreq) as Hget.
    rewrite Halloc in Hget. by apply Hget.
  - intros Hchai Hin.
    destruct (chai_requests_preferred E fs input_fasta msa_dir
                input_constraints output_dir template_hits_path) as [Hnd _].
    destruct (allocate_unsuffixed (resolve E) requests Hnd 2 output_dir
                "/output"%string output_mount Hreq)
      as (j & q & Hj & Hq & Heq & _); [by rewrite Halloc|].
    destruct j as [|[|[|j]]]; [| | |lia]; simplify_eq/=; done.
Qed.

Lemma generate_chai_command_output_last_witness :
  ∃ (runtime : string) (bind_map : BindMap) (tool : list string)
    (output_mount : string),
    [ "/usr/bin/apptainer"; "exec"; "--nv";
      "--bind"; "/opt/abcfold/chai1:/abcfold_chai";
      "--bind"; "/work/in:/input";
      "/work/img.sif"; "python"; "/abcfold_chai/chai.py"; "fold";
      "/input/job.fasta";
      "--num-diffn-samples"; "5"; "--num-trunk-recycles"; "10";
      "--seed"; "42"; "/input" ]%string
    = [runtime; "exec"; "--nv"]%string ++ bind_flags bind_map
        ++ str (resolve (example_env always_succeeds) ["img.sif"%string]) :: tool ∧
    dict_get bind_map (resolve (example_env always_succeeds) ["in"%string])
      = Some output_mount ∧
    last [ "/usr/bin/apptainer"; "exec"; "--nv";
      "--bind"; "/opt/abcfold/chai1:/abcfold_chai";
      "--bind"; "/work/in:/input";
      "/work/img.sif"; "python"; "/abcfold_chai/chai.py"; "fold";
      "/input/job.fasta";
      "--num-diffn-samples"; "5"; "--num-trunk-recycles"; "10";
      "--seed"; "42"; "/input" ]%string = Some output_mount ∧
    (resolve (example_env always_succeeds) ["in"%string]
       ≠ resolve (example_env always_succeeds)
           (parent (joinpath (chai_dir (example_env always_succeeds)) "chai.py")) →
     resolve (example_env always_succeeds) ["in"%string]
       ≠ resolve (example_env always_succeeds) (parent ["in"; "job.fasta"]%string) →
     output_mount = "/output"%string).
Proof.
  apply (generate_chai_command_output_last (example_env always_succeeds)
           example_fs ["in"; "job.fasta"]%string ["in"; "msa"]%string None
           ["in"%string] 5%Z 10%Z 42%Z false None ["img.sif"%string]).
  by vm_compute.
Defined.

(** X9.  [run_boltz] collects the standard output of the tool line by
    line, decoding each line as it arrives (lines 81 to 86).  What it
    collects is the decoding of the whole output: the text itself when the
    output is well-formed UTF-8, whatever the line lengths and however
    many line feeds there are, and a [UnicodeDecodeError] otherwise. *)
Theorem capture_decodes_output (out : string) :
  capture (readlines out) EmptyString = decode out ∧
  (utf8_valid out = true → capture (readlines out) EmptyString = inr out) ∧
  (utf8_valid out = false →
   capture (readlines out) EmptyString = inl UnicodeDecodeError).
Proof.
  rewrite capture_readlines. unfold decode.
  split; [done|]. split; by intros ->.
Qed.

Lemma capture_decodes_output_witness :
  capture (readlines (String "195" (String "169" (String "010" "ok"))))
    EmptyString
    = inr (String "195" (String "169" (String "010" "ok"))) ∧
  capture (readlines (String "010" (String "195" (String "010" "ok"))))
    EmptyString
    = inl UnicodeDecodeError.
Proof.
  split.
  - by apply (capture_decodes_output (String "195" (String "169" (String "010" "ok")))).
  - by apply (capture_decodes_output (String "010" (String "195" (String "010" "ok")))).
Defined.

(** ** Whole runs, seed by seed *)

Lemma elem_of_last {A} (tp t0 : list A) (x : A) :
  last t0 = Some x → last (tp ++ t0) = Some x.
Proof. intros Hx. by rewrite last_app, Hx. Qed.

Lemma spawned_elem (t : list event) (s : Z) :
  s ∈ spawned t → ∃ cmd f, Spawn s cmd f ∈ t.
Proof.
  unfold spawned. intros (ev & Hev & Heq)%list_elem_of_omap.
  destruct ev; simplify_eq. by eexists _, _.
Qed.

Section GoodProcesses.
Context (E : Env).


(** An iteration of [run_chai] goes on exactly when its process exits
    with return code 0. *)
Lemma chai_seed_goes_on (out_fasta msa_dir : Path)
    (out_constraints : option Path) (output_dir : Path) (test : bool)
    (number_of_models num_recycles : Z) (use_templates_server : bool)
    (template_hits_path sif_path : option Path) (seed : Z) (fs fs' : FS)
    (r : result unit) (t : list event)
    (s : Z) (cmd : list string) (f : FS) :
  chai_seed E out_fasta msa_dir out_constraints output_dir test
    number_of_models num_recycles use_templates_server template_hits_path
    sif_path seed fs = (r, fs', t) →
  Spawn s cmd f ∈ t →
  r = Ok tt ↔ ∃ out err f1, popen E f cmd = Exited 0 out err f1.
Proof.
  intros Hstep Hin.
  pose proof (chai_seed_orderly _ _ _ _ _ _ _ _ _ _ _ _ _ _ _ _ Hstep)
    as (_ & _ & _ & _ & _ & _ & _ & Hexit & _).
  pose proof (chai_seed_calls _ _ _ _ _ _ _ _ _ _ _ _ _ _ _ _ Hstep)
    as (_ & Hspawn & _).
  destruct (Hspawn _ _ _ Hin) as (-> & _ & _ & Hraise & Hgood).
  split.
  - intros ->. destruct (popen E f cmd) as [e|c out err f1] eqn:Hp.
    { by destruct (Hraise e eq_refl) as ([=] & _). }
    pose proof (Hgood _ _ _ _ eq_refl) as Hex.
    apply Hexit in Hex. pose proof (proj2 Hex eq_refl) as Hpass.
    exists out, err, f1.
    destruct (decide (c = 0%Z)) as [->|Hc]; [done|destruct Hpass; by left].
  - intros (out & err & f1 & Hp).
    pose proof (Hgood _ _ _ _ Hp) as Hex.
    apply (Hexit _ _ _ _ _ Hex).
    intros [?|(out' & ? & ?)]; simplify_eq.
Qed.
End GoodProcesses.

Section Outcome.
Context (body : Z → M unit).
Hypothesis Hbody : ∀ seed fs fs' r t,
  body seed fs = (r, fs', t) → orderly seed r t.

(** What makes an iteration go on, as a property of the process it
    spawns. *)
Context (good : FS → list string → Prop).
Hypothesis Hgood : ∀ seed fs fs' r t s cmd f,
  body seed fs = (r, fs', t) → Spawn s cmd f ∈ t →
  r = Ok tt ↔ good f cmd.

Lemma run_returns_true (seeds : list Z) (fs fs' : FS) (r : result unit)
    (t : list event) :
  (for_each seeds body;; return_ true) fs = (r, fs', t) →
  r = Return true ↔
  spawned t = seeds ∧ ∀ s cmd f, Spawn s cmd f ∈ t → good f cmd.
Proof.
  intros Hrun.
  destruct (run_cases _ Hbody _ _ _ _ _ Hrun)
    as [(-> & _ & Hs & _ & Hall)
       |(Hok & Htrue & before & x & rest & fs0 & tp & t0 &
         -> & Hx & -> & _ & Hs & _ & _)].
  - split; [|done]. intros _. split; [done|].
    intros s cmd f Hin. rewrite Forall_forall in Hall.
    destruct (Hall _ Hin) as (y & fs2 & fs3 & ty & Hy & Hty).
    by apply (Hgood _ _ _ _ _ _ _ _ Hy Hty).
  - split; [done|]. intros [Heq Hall]. destruct Hok.
    unfold spawned in Heq, Hs. rewrite omap_app, Hs in Heq.
    apply app_inv_head in Heq. fold (spawned t0) in Heq.
    assert (x ∈ spawned t0) as Hin by (rewrite Heq; left).
    apply spawned_elem in Hin as (cmd & f & Hin).
    apply (Hgood _ _ _ _ _ _ _ _ Hx Hin), (Hall x).
    apply elem_of_app. by right.
Qed.
End Outcome.



(** X11.  The same for [run_chai] (lines 72 to 117), whose only test on a
    process is its return code: what the run does for its seeds is an
    initial part of build, spawn and exit for one seed after the other,
    and the run returns [True] exactly when it has spawned a process for
    every seed and each of these processes exited with return code 0. *)
Theorem run_chai_outcome (E : Env) (out_fasta msa_dir : Path)
    (out_constraints : option Path) (output_dir : Path) (seeds : list Z)
    (test : bool) (number_of_models num_recycles : Z)
    (use_templates_server : bool) (template_hits_path sif_path : option Path)
    (fs fs' : FS) (r : result unit) (t : list event) :
  run_chai E out_fasta msa_dir out_constraints output_dir seeds test
    number_of_models num_recycles use_templates_server template_hits_path
    sif_path fs = (r, fs', t) →
  steps t `prefix_of` schedule seeds ∧
  (r = Return true ↔
   spawned t = seeds ∧
   ∀ s cmd f, Spawn s cmd f ∈ t →
     ∃ out err f1, popen E f cmd = Exited 0 out err f1) ∧
  (r = Return true → steps t = schedule seeds).
Proof.
  intros Hrun. unfold run_chai in Hrun.
  pose proof (chai_seed_orderly E out_fasta msa_dir out_constraints
                output_dir test number_of_models num_recycles
                use_templates_server template_hits_path sif_path) as Hbody.
  destruct (run_schedule _ Hbody _ _ _ _ _ Hrun) as (Hpre & _ & Hall).
  split; [done|]. split; [|by intros Hr; apply Hall].
  apply (run_returns_true _ Hbody
           (λ f cmd, ∃ out err f1, popen E f cmd = Exited 0 out err f1)
           (λ seed fs0 fs1 r0 t0 s cmd f Hstep Hin,
              chai_seed_goes_on E _ _ _ _ _ _ _ _ _ _ _ _ _ _ _ _ _ _ Hstep Hin)
           _ _ _ _ _ Hrun).
Qed.

Lemma run_chai_outcome_witness :
  let run :=
    run_chai (example_env runs_out_of_memory) ["in"; "job.fasta"]%string
      ["in"; "msa"]%string None ["out"%string] [1; 2; 3]%Z false 5 10 false
      None None example_fs in
  run.1.1 = Return true ∧
  (steps run.2 `prefix_of` schedule [1; 2; 3]%Z ∧
   (run.1.1 = Return true ↔
    spawned run.2 = [1; 2; 3]%Z ∧
    ∀ s cmd f, Spawn s cmd f ∈ run.2 →
      ∃ out err f1,
        popen (example_env runs_out_of_memory) f cmd = Exited 0 out err f1) ∧
   (run.1.1 = Return true → steps run.2 = schedule [1; 2; 3]%Z)).
Proof.
  intros run. split; [by vm_compute|].
  apply (run_chai_outcome (example_env runs_out_of_memory)
           ["in"; "job.fasta"]%string ["in"; "msa"]%string None ["out"%string]
           [1; 2; 3]%Z false 5%Z 10%Z false None None example_fs
           run.1.2 run.1.1 run.2).
  by vm_compute.
Defined.



(** X13.  What is run.  Every process a run spawns is for one of the
    requested seeds and runs the command the builder returns for that
    seed: for [run_boltz] the command for the seed's input file
    [<working_dir>/<stem>_seed-<seed>.yaml], spawned in the filesystem
    that writing this file has left; for [run_chai] the command for the
    seed's output directory [<output_dir>/chai_output_seed-<seed>], built
    for the files that exist at that moment.  Under [test] it is the test
    command of the tool. *)
Theorem run_spawns_built_commands (E : Env) :
  (∀ (input_json output_dir working_dir : Path) (seeds : list Z) (test : bool)
     (number_of_models num_recycles : Z) (sif_path : option Path)
     (fs fs' : FS) (r : result unit) (t : list event)
     (s : Z) (cmd : list string) (f : FS),
     run_boltz E input_json output_dir working_dir seeds test
       number_of_models num_recycles sif_path fs = (r, fs', t) →
     Spawn s cmd f ∈ t →
     s ∈ seeds ∧
     (if test then generate_boltz_test_command E sif_path
      else generate_boltz_command E (out_file working_dir input_json s)
             output_dir number_of_models num_recycles s sif_path) = inr cmd ∧
     ∃ f0, write_yaml E f0 (out_file working_dir input_json s) = inr f) ∧
  (∀ (out_fasta msa_dir : Path) (out_constraints : option Path)
     (output_dir : Path) (seeds : list Z) (test : bool)
     (number_of_models num_recycles : Z) (use_templates_server : bool)
     (template_hits_path sif_path : option Path)
     (fs fs' : FS) (r : result unit) (t : list event)
     (s : Z) (cmd : list string) (f : FS),
     run_chai E out_fasta msa_dir out_constraints output_dir seeds test
       number_of_models num_recycles use_templates_server
       template_hits_path sif_path fs = (r, fs', t) →
     Spawn s cmd f ∈ t →
     s ∈ seeds ∧
     (if test then generate_chai_test_command E sif_path
      else generate_chai_command E f out_fasta msa_dir out_constraints
             (chai_output_dir output_dir s) number_of_models num_recycles s
             use_templates_server template_hits_path sif_path) = inr cmd).
Proof.
  split.
  - intros input_json output_dir working_dir seeds test n rc sif
      fs fs' r t s cmd f Hrun Hin. unfold run_boltz in Hrun.
    pose proof (boltz_seed_orderly E input_json output_dir working_dir test
                  n rc sif) as Hbody.
    destruct (run_elem _ Hbody _ _ _ _ _ _ Hrun Hin)
      as (x & fs0 & r0 & fs1 & t0 & Hx & Hstep & Hin0 & _ & _).
    apply boltz_seed_calls in Hstep as (_ & Hspawn & _).
    destruct (Hspawn _ _ _ Hin0) as (-> & Hcmd & Hy & _).
    split; [done|]. split; [|by exists fs0].
    unfold boltz_cmd in Hcmd. by destruct test.
  - intros out_fasta msa_dir out_constraints output_dir seeds test n rc
      uts thp sif fs fs' r t s cmd f Hrun Hin. unfold run_chai in Hrun.
    pose proof (chai_seed_orderly E out_fasta msa_dir out_constraints
                  output_dir test n rc uts thp sif) as Hbody.
    destruct (run_elem _ Hbody _ _ _ _ _ _ Hrun Hin)
      as (x & fs0 & r0 & fs1 & t0 & Hx & Hstep & Hin0 & _ & _).
    apply chai_seed_calls in Hstep as (_ & Hspawn & _).
    destruct (Hspawn _ _ _ Hin0) as (-> & Hcmd & _).
    split; [done|]. unfold chai_cmd in Hcmd. by destruct test.
Qed.

Lemma run_spawns_built_commands_witness :
  let E := example_env always_succeeds in
  let boltz :=
    run_boltz E ["in"; "job.json"]%string ["out"%string] ["/"; "tmp"]%string
      [1; 2]%Z false 5 10 None example_fs in
  let chai :=
    run_chai E ["in"; "job.fasta"]%string ["in"; "msa"]%string None
      ["out"%string] [1; 2]%Z true 5 10 false None None example_fs in
  (spawn_cmd boltz.2 4 =
     ["boltz"; "predict"; "/tmp/job_seed-2.yaml"; "--out_dir"; "/work/out";
      "--override"; "--write_full_pae"; "--write_full_pde";
      "--diffusion_samples"; "5"; "--recycling_steps"; "10";
      "--seed"; "2"]%string ∧
   2%Z ∈ [1; 2]%Z ∧
   generate_boltz_command E
     (out_file ["/"; "tmp"]%string ["in"; "job.json"]%string 2)
     ["out"%string] 5 10 2 None = inr (spawn_cmd boltz.2 4) ∧
   ∃ f0, write_yaml E f0
           (out_file ["/"; "tmp"]%string ["in"; "job.json"]%string 2)
         = inr (spawn_fs boltz.2 4)) ∧
  (2%Z ∈ [1; 2]%Z ∧
   generate_chai_test_command E None = inr (spawn_cmd chai.2 4)).
Proof.
  intros E boltz chai. split; [split; [by vm_compute|]|].
  - apply (proj1 (run_spawns_built_commands E) ["in"; "job.json"]%string
             ["out"%string] ["/"; "tmp"]%string [1; 2]%Z false 5%Z 10%Z
             None example_fs boltz.1.2 boltz.1.1 boltz.2
             2%Z (spawn_cmd boltz.2 4) (spawn_fs boltz.2 4)).
    + by vm_compute.
    + apply list_elem_of_lookup_2 with 4. by vm_compute.
  - apply (proj2 (run_spawns_built_commands E) ["in"; "job.fasta"]%string
             ["in"; "msa"]%string None ["out"%string] [1; 2]%Z true 5%Z 10%Z
             false None None example_fs chai.1.2 chai.1.1 chai.2
             2%Z (spawn_cmd chai.2 4) (spawn_fs chai.2 4)).
    + by vm_compute.
    + apply list_elem_of_lookup_2 with 4. by vm_compute.
Defined.

(** X14.  When [subprocess.Popen] raises (the executable of a bare
    command is not installed, say), the exception leaves the run: the run
    does not return [False], no later seed is tried and no log is
    written. *)
Theorem run_popen_error_propagates (E : Env) :
  (∀ (input_json output_dir working_dir : Path) (seeds : list Z) (test : bool)
     (number_of_models num_recycles : Z) (sif_path : option Path)
     (fs fs' : FS) (r : result unit) (t : list event)
     (s : Z) (cmd : list string) (f : FS) (e : exn),
     run_boltz E input_json output_dir working_dir seeds test
       number_of_models num_recycles sif_path fs = (r, fs', t) →
     Spawn s cmd f ∈ t → popen E f cmd = SpawnFailed e →
     r = Raise e ∧ fs' = f ∧ last t = Some (Spawn s cmd f) ∧ writes t = []) ∧
  (∀ (out_fasta msa_dir : Path) (out_constraints : option Path)
     (output_dir : Path) (seeds : list Z) (test : bool)
     (number_of_models num_recycles : Z) (use_templates_server : bool)
     (template_hits_path sif_path : option Path)
     (fs fs' : FS) (r : result unit) (t : list event)
     (s : Z) (cmd : list string) (f : FS) (e : exn),
     run_chai E out_fasta msa_dir out_constraints output_dir seeds test
       number_of_models num_recycles use_templates_server
       template_hits_path sif_path fs = (r, fs', t) →
     Spawn s cmd f ∈ t → popen E f cmd = SpawnFailed e →
     r = Raise e ∧ fs' = f ∧ last t = Some (Spawn s cmd f) ∧ writes t = []).
Proof.
  split.
  - intros input_json output_dir working_dir seeds test n rc sif
      fs fs' r t s cmd f e Hrun Hin Hp. unfold run_boltz in Hrun.
    pose proof (boltz_seed_orderly E input_json output_dir working_dir test
                  n rc sif) as Hbody.
    destruct (run_elem _ Hbody _ _ _ _ _ _ Hrun Hin)
      as (x & fs0 & r0 & fs1 & t0 & Hx & Hstep & Hin0 & Hsub & Hlast).
    pose proof (Hbody _ _ _ _ _ Hstep) as (_ & _ & _ & _ & _ & _ & Hw & _).
    apply boltz_seed_calls in Hstep as (_ & Hspawn & _).
    destruct (Hspawn _ _ _ Hin0) as (_ & _ & _ & Hfail & _).
    destruct (Hfail _ Hp) as (Hr & Hfs & Hl).
    destruct Hlast as [[-> _]|(-> & -> & tp & -> & Htp)]; [done|].
    split; [done|]. split; [done|]. split; [by apply elem_of_last|].
    unfold writes in *. rewrite omap_app, Htp.
    destruct Hw as [->|[? _]]; [done|congruence].
  - intros out_fasta msa_dir out_constraints output_dir seeds test n rc
      uts thp sif fs fs' r t s cmd f e Hrun Hin Hp. unfold run_chai in Hrun.
    pose proof (chai_seed_orderly E out_fasta msa_dir out_constraints
                  output_dir test n rc uts thp sif) as Hbody.
    destruct (run_elem _ Hbody _ _ _ _ _ _ Hrun Hin)
      as (x & fs0 & r0 & fs1 & t0 & Hx & Hstep & Hin0 & Hsub & Hlast).
    pose proof (Hbody _ _ _ _ _ Hstep) as (_ & _ & _ & _ & _ & _ & Hw & _).
    apply chai_seed_calls in Hstep as (_ & Hspawn & _).
    destruct (Hspawn _ _ _ Hin0) as (_ & _ & _ & Hfail & _).
    destruct (Hfail _ Hp) as (Hr & Hfs & Hl).
    destruct Hlast as [[-> _]|(-> & -> & tp & -> & Htp)]; [done|].
    split; [done|]. split; [done|]. split; [by apply elem_of_last|].
    unfold writes in *. rewrite omap_app, Htp.
    destruct Hw as [->|[? _]]; [done|congruence].
Qed.

Lemma run_popen_error_propagates_witness :
  let E := example_env not_installed in
  let boltz :=
    run_boltz E ["in"; "job.json"]%string ["out"%string] ["/"; "tmp"]%string
      [1; 2]%Z false 5 10 None example_fs in
  let chai :=
    run_chai E ["in"; "job.fasta"]%string ["in"; "msa"]%string None
      ["out"%string] [1; 2]%Z false 5 10 false None None example_fs in
  (boltz.1.1 = Raise FileNotFoundError ∧ boltz.1.2 = spawn_fs boltz.2 1 ∧
   last boltz.2 = Some (Spawn 1 (spawn_cmd boltz.2 1) (spawn_fs boltz.2 1)) ∧
   writes boltz.2 = []) ∧
  (chai.1.1 = Raise FileNotFoundError ∧ chai.1.2 = spawn_fs chai.2 1 ∧
   last chai.2 = Some (Spawn 1 (spawn_cmd chai.2 1) (spawn_fs chai.2 1)) ∧
   writes chai.2 = []).
Proof.
  intros E boltz chai. split.
  - apply (proj1 (run_popen_error_propagates E) ["in"; "job.json"]%string
             ["out"%string] ["/"; "tmp"]%string [1; 2]%Z false 5%Z 10%Z
             None example_fs boltz.1.2 boltz.1.1 boltz.2
             1%Z (spawn_cmd boltz.2 1) (spawn_fs boltz.2 1) FileNotFoundError).
    + by vm_compute.
    + apply list_elem_of_lookup_2 with 1. by vm_compute.
    + done.
  - apply (proj2 (run_popen_error_propagates E) ["in"; "job.fasta"]%string
             ["in"; "msa"]%string None ["out"%string] [1; 2]%Z false 5%Z 10%Z
             false None None example_fs chai.1.2 chai.1.1 chai.2
             1%Z (spawn_cmd chai.2 1) (spawn_fs chai.2 1) FileNotFoundError).
    + by vm_compute.
    + apply list_elem_of_lookup_2 with 1. by vm_compute.
    + done.
Defined.



(** ** The names of the files of a seed *)

Lemma string_app_inj_r (s1 s2 suffix : string) :
  s1 +:+ suffix = s2 +:+ suffix → s1 = s2.
Proof.
  revert s2. induction s1 as [|a s1 IH]; intros [|b s2] Heq; [done|..].
  - apply (f_equal String.length) in Heq.
    rewrite !string_length_app in Heq. simpl in Heq. lia.
  - apply (f_equal String.length) in Heq.
    rewrite !string_length_app in Heq. simpl in Heq. lia.
  - change (String a (s1 +:+ suffix) = String b (s2 +:+ suffix)) in Heq.
    injection Heq as -> Heq. f_equal. by apply IH.
Qed.

(** X17.  The seeds of a run do not share their files: for two different
    seeds [run_boltz] writes two different input files (line 59) and
    [run_chai] uses two different output directories (line 73). *)
Theorem seed_files_distinct (seed1 seed2 : Z) :
  seed1 ≠ seed2 →
  (∀ working_dir input_json,
     out_file working_dir input_json seed1
       ≠ out_file working_dir input_json seed2) ∧
  (∀ output_dir,
     chai_output_dir output_dir seed1 ≠ chai_output_dir output_dir seed2).
Proof.
  intros Hne. split.
  - intros working_dir input_json Heq. destruct Hne.
    unfold out_file, joinpath in Heq.
    apply app_inv_head in Heq. injection Heq as Heq.
    apply (inj (String.append (stem input_json))) in Heq.
    apply (inj (String.append "_seed-")) in Heq.
    apply string_app_inj_r in Heq. by apply (inj pretty) in Heq.
  - intros output_dir Heq. destruct Hne.
    unfold chai_output_dir, joinpath in Heq.
    apply app_inv_head in Heq. injection Heq as Heq.
    change (pretty seed1 = pretty seed2) in Heq.
    by apply (inj pretty) in Heq.
Qed.

Lemma seed_files_distinct_witness :
  out_file ["/"; "tmp"]%string ["in"; "job.json"]%string 1
    ≠ out_file ["/"; "tmp"]%string ["in"; "job.json"]%string 2 ∧
  chai_output_dir ["out"%string] 1 ≠ chai_output_dir ["out"%string] 2.
Proof.
  destruct (seed_files_distinct 1 2) as [Hboltz Hchai]; [done|].
  split; [apply Hboltz|apply Hchai].
Defined.
